(** * The report session of the Streamlit proxy

    A shallow embedding of [lib/streamlit/proxy/ProxyConnection.py]: the
    class [ProxyConnection], the function [_initialize_fs_observer] and the
    class [FSEventHandler].

    Python objects that are shared and mutated in place (the report queues a
    session hands to its clients) live in a heap and are named by
    references; a method is a computation that threads the heap, the
    session object and the trace of the calls that leave the process, and
    that may raise an exception. The calls of [LOGGER] are left out: they
    change nothing a method reads. *)

From Stdlib Require Import Strings.Ascii Strings.String Strings.Byte.
From stdpp Require Import base option list strings pretty.
From stdpp Require Import gmap.

(** ** Values of the Python run time *)

(** The exceptions that occur in the file: [list.remove] raises
    [ValueError], [Observer.start] and [subprocess.Popen] raise [OSError]
    (the [FileNotFoundError] of a missing program or directory is one). *)
Inductive exn : Type :=
  | ValueError
  | OSError.

#[global] Instance exn_eq_dec : EqDecision exn.
Proof. solve_decision. Defined.

(** How a call ends. *)
Inductive outcome (A : Type) : Type :=
  | Return (a : A)
  | Raise (e : exn).
Arguments Return {A} a.
Arguments Raise {A} e.

(** The values [json.dumps] is given in this file. *)
Inductive json : Type :=
  | JStr (s : string)
  | JInt (n : nat).

(** The kinds of [watchdog] file-system events ([event.event_type]). *)
Inductive event_type : Type :=
  | EVENT_TYPE_MOVED
  | EVENT_TYPE_DELETED
  | EVENT_TYPE_CREATED
  | EVENT_TYPE_MODIFIED.

Record FileSystemEvent : Type := {
  ev_event_type : event_type;
  ev_src_path : string;
  ev_is_directory : bool
}.

(** The [NewReport] message a session is built from. *)
Record NewReport : Type := {
  msg_id : string;
  msg_cwd : string;
  msg_command_line : list string;
  msg_source_file_path : string
}.

(** ** Collaborators

    What the file imports and calls but does not define: the protobuf
    [Delta] message with its [SerializeToString], [json.dumps],
    [streamlit.util.get_local_id], the four options read through
    [config.get_option], whether [Observer.start] succeeds on a watch,
    whether [subprocess.Popen] starts a process, and the path filter of
    [PatternMatchingEventHandler]. *)
Class Collaborators : Type := {
  Delta : Type;
  SerializeToString : Delta -> list byte;
  json_dumps : list (string * json) -> string;
  (** [str(get_local_id())] *)
  local_id_str : string;
  (** [config.get_option('proxy.watchFileSystem')] and the like *)
  proxy_watchFileSystem : bool;
  proxy_watchUpdatesRecursively : bool;
  proxy_watchPatterns : list string;
  proxy_ignorePatterns : list string;
  (** [Observer.start] on a watch of a path, recursive or not: [true] when
      the observer thread starts, [false] when the call raises [OSError] *)
  observer_starts : string -> bool -> bool;
  (** [subprocess.Popen(args, cwd=cwd)]: [true] when the process starts,
      [false] when the call raises [OSError], as it does when the program
      or the directory [cwd] does not exist *)
  popen_starts : list string -> string -> bool;
  (** the filter [PatternMatchingEventHandler.dispatch] applies to an event,
      given the patterns and the ignore patterns of the handler *)
  matches_patterns : FileSystemEvent -> list string -> list string -> bool
}.

(** ** [posixpath.dirname] *)

(** [p.rfind('/') + 1], on the list of characters of [p]. *)
Fixpoint rfind_sep_succ (p : list ascii) : nat :=
  match p with
  | [] => 0
  | c :: p' =>
      match rfind_sep_succ p' with
      | 0 => if Ascii.eqb c "/" then 1 else 0
      | S i => S (S i)
      end
  end.

(** [head.rstrip('/')] *)
Fixpoint rstrip_sep (p : list ascii) : list ascii :=
  match p with
  | [] => []
  | c :: p' =>
      match rstrip_sep p' with
      | [] => if Ascii.eqb c "/" then [] else [c]
      | r => c :: r
      end
  end.

Definition all_sep (p : list ascii) : bool :=
  forallb (fun c => Ascii.eqb c "/") p.

(** [[
    i = p.rfind(sep) + 1
    head = p[:i]
    if head and head != sep*len(head):
        head = head.rstrip(sep)
    return head
    ]] *)
Definition dirname (p : string) : string :=
  let cs := list_ascii_of_string p in
  let head := take (rfind_sep_succ cs) cs in
  string_of_list_ascii
    (if negb (bool_decide (head = [])) && negb (all_sep head)
     then rstrip_sep head else head).

(** A reference to a [ReportQueue] object: its index in the heap. Two
    references are the same object exactly when they are equal. *)
Abbreviation qref := nat (only parsing).

Section Model.
Context `{Collaborators}.

(** ** The report queue *)

(** Modelled from the spec: the class [ReportQueue] of
    [streamlit/ReportQueue.py], which is not among the sources. A delta log
    is an ordered sequence of deltas plus a closed/open flag. *)
Record ReportQueue : Type := {
  rq_deltas : list Delta;
  rq_closed : bool
}.

(** Modelled from the spec: [ReportQueue()]. A log is created empty, and
    open. *)
Definition ReportQueue_new : ReportQueue :=
  {| rq_deltas := []; rq_closed := false |}.

(** Modelled from the spec: [ReportQueue.__call__(delta)], the spec's
    [append]: fails silently (no-op) if the log is closed; otherwise stores
    the delta in order. *)
Definition ReportQueue_call (delta : Delta) (q : ReportQueue) : ReportQueue :=
  if rq_closed q then q
  else {| rq_deltas := rq_deltas q ++ [delta]; rq_closed := rq_closed q |}.

(** Modelled from the spec: [ReportQueue.get_deltas()], the spec's [drain]:
    returns all stored deltas in append order and clears internal storage;
    it is permitted on a closed log. *)
Definition ReportQueue_get_deltas (q : ReportQueue) : list Delta * ReportQueue :=
  (rq_deltas q, {| rq_deltas := []; rq_closed := rq_closed q |}).

(** Modelled from the spec: [ReportQueue.clone()]: a new log instance
    containing a copy of every delta currently present, in the same order.
    The spec copies the deltas only; the new instance starts open, as every
    new log does. *)
Definition ReportQueue_clone (q : ReportQueue) : ReportQueue :=
  {| rq_deltas := rq_deltas q; rq_closed := false |}.

(** Modelled from the spec: [ReportQueue.close()]: idempotent; flips the
    closed flag. *)
Definition ReportQueue_close (q : ReportQueue) : ReportQueue :=
  {| rq_deltas := rq_deltas q; rq_closed := true |}.

(** ** The heap, the session object and the state *)

(** An [Observer] with the one watch [_initialize_fs_observer] schedules on
    it. The handler of the watch is an [FSEventHandler] whose [_fn_to_run]
    is the bound method [_on_fs_event] of the session that owns the
    observer. *)
Record Observer : Type := {
  obs_path : string;
  obs_recursive : bool;
  obs_patterns : list string;
  obs_ignore_patterns : list string;
  (** set by [stop()] *)
  obs_stopped : bool
}.

(** The attributes [__init__] gives a [ProxyConnection]. *)
Record ProxyConnection : Type := {
  id : string;
  cwd : string;
  command_line : list string;
  source_file_path : string;
  name : string;
  _has_local : bool;
  _in_grace_period : bool;
  _master_queue : qref;
  _client_queues : list qref;
  _fs_observer : option Observer
}.

(** The calls that leave the process. A call is recorded when it is made,
    whether it returns or raises. *)
Inductive Effect : Type :=
  | Observer_start (path : string) (recursive : bool)
  | Observer_stop
  | Observer_join (timeout : nat)
  | Popen (args : list string) (cwd : string)
  | Popen_wait.

Record State : Type := {
  self : ProxyConnection;
  heap : list ReportQueue;
  trace : list Effect
}.

(** ** Computations *)

Definition M (A : Type) : Type := State -> outcome A * State.

Definition ret {A} (a : A) : M A := fun st => (Return a, st).

Definition bind {A B} (m : M A) (k : A -> M B) : M B :=
  fun st =>
    match m st with
    | (Return a, st') => k a st'
    | (Raise e, st') => (Raise e, st')
    end.

Definition raise {A} (e : exn) : M A := fun st => (Raise e, st).

(** [try: body  except e: handler] *)
Definition try_except {A} (body : M A) (e : exn) (handler : M A) : M A :=
  fun st =>
    match body st with
    | (Return a, st') => (Return a, st')
    | (Raise e', st') =>
        if bool_decide (e' = e) then handler st' else (Raise e', st')
    end.

#[export] Instance M_ret : MRet M := @ret.
#[export] Instance M_bind : MBind M := fun A B k m => bind m k.

Definition get_self : M ProxyConnection := fun st => (Return (self st), st).

(** [self.attr = v], with [f] the update of the attribute. *)
Definition setattr (f : ProxyConnection -> ProxyConnection) : M unit :=
  fun st =>
    (Return tt, {| self := f (self st); heap := heap st; trace := trace st |}).

Definition emit (e : Effect) : M unit :=
  fun st =>
    (Return tt, {| self := self st; heap := heap st; trace := trace st ++ [e] |}).

(** A new object gets the next free reference. *)
Definition alloc (q : ReportQueue) : M qref :=
  fun st =>
    (Return (length (heap st)),
     {| self := self st; heap := heap st ++ [q]; trace := trace st |}).

(** The object a reference names. A reference of a running program always
    names an object; outside the heap the model reads an empty queue. *)
Definition deref (r : qref) : M ReportQueue :=
  fun st => (Return (default ReportQueue_new (heap st !! r)), st).

(** A method that mutates the object [r] names. *)
Definition update (r : qref) (f : ReportQueue -> ReportQueue) : M unit :=
  fun st =>
    (Return tt,
     {| self := self st; heap := alter f r (heap st); trace := trace st |}).

(** [for x in l: body(x)] *)
Fixpoint for_each {A} (l : list A) (body : A -> M unit) : M unit :=
  match l with
  | [] => mret tt
  | x :: l' => body x ;; for_each l' body
  end.

(** The methods of [ReportQueue], on references. *)
Definition queue_new : M qref := alloc ReportQueue_new.

Definition queue_call (r : qref) (delta : Delta) : M unit :=
  update r (ReportQueue_call delta).

Definition queue_close (r : qref) : M unit := update r ReportQueue_close.

Definition queue_clone (r : qref) : M qref :=
  q ← deref r; alloc (ReportQueue_clone q).

Definition queue_get_deltas (r : qref) : M (list Delta) :=
  q ← deref r;
  update r (fun q => snd (ReportQueue_get_deltas q)) ;;
  mret (fst (ReportQueue_get_deltas q)).

(** ** Attribute updates *)

Definition set_id (v : string) (c : ProxyConnection) : ProxyConnection :=
  {| id := v; cwd := cwd c; command_line := command_line c;
     source_file_path := source_file_path c; name := name c;
     _has_local := _has_local c; _in_grace_period := _in_grace_period c;
     _master_queue := _master_queue c; _client_queues := _client_queues c;
     _fs_observer := _fs_observer c |}.

Definition set_cwd (v : string) (c : ProxyConnection) : ProxyConnection :=
  {| id := id c; cwd := v; command_line := command_line c;
     source_file_path := source_file_path c; name := name c;
     _has_local := _has_local c; _in_grace_period := _in_grace_period c;
     _master_queue := _master_queue c; _client_queues := _client_queues c;
     _fs_observer := _fs_observer c |}.

Definition set_command_line (v : list string) (c : ProxyConnection) : ProxyConnection :=
  {| id := id c; cwd := cwd c; command_line := v;
     source_file_path := source_file_path c; name := name c;
     _has_local := _has_local c; _in_grace_period := _in_grace_period c;
     _master_queue := _master_queue c; _client_queues := _client_queues c;
     _fs_observer := _fs_observer c |}.

Definition set_source_file_path (v : string) (c : ProxyConnection) : ProxyConnection :=
  {| id := id c; cwd := cwd c; command_line := command_line c;
     source_file_path := v; name := name c;
     _has_local := _has_local c; _in_grace_period := _in_grace_period c;
     _master_queue := _master_queue c; _client_queues := _client_queues c;
     _fs_observer := _fs_observer c |}.

Definition set_name (v : string) (c : ProxyConnection) : ProxyConnection :=
  {| id := id c; cwd := cwd c; command_line := command_line c;
     source_file_path := source_file_path c; name := v;
     _has_local := _has_local c; _in_grace_period := _in_grace_period c;
     _master_queue := _master_queue c; _client_queues := _client_queues c;
     _fs_observer := _fs_observer c |}.

Definition set__master_queue (r : qref) (c : ProxyConnection) : ProxyConnection :=
  {| id := id c; cwd := cwd c; command_line := command_line c;
     source_file_path := source_file_path c; name := name c;
     _has_local := _has_local c; _in_grace_period := _in_grace_period c;
     _master_queue := r; _client_queues := _client_queues c;
     _fs_observer := _fs_observer c |}.

Definition set__has_local (b : bool) (c : ProxyConnection) : ProxyConnection :=
  {| id := id c; cwd := cwd c; command_line := command_line c;
     source_file_path := source_file_path c; name := name c;
     _has_local := b; _in_grace_period := _in_grace_period c;
     _master_queue := _master_queue c; _client_queues := _client_queues c;
     _fs_observer := _fs_observer c |}.

Definition set__in_grace_period (b : bool) (c : ProxyConnection) : ProxyConnection :=
  {| id := id c; cwd := cwd c; command_line := command_line c;
     source_file_path := source_file_path c; name := name c;
     _has_local := _has_local c; _in_grace_period := b;
     _master_queue := _master_queue c; _client_queues := _client_queues c;
     _fs_observer := _fs_observer c |}.

Definition set__client_queues (l : list qref) (c : ProxyConnection) : ProxyConnection :=
  {| id := id c; cwd := cwd c; command_line := command_line c;
     source_file_path := source_file_path c; name := name c;
     _has_local := _has_local c; _in_grace_period := _in_grace_period c;
     _master_queue := _master_queue c; _client_queues := l;
     _fs_observer := _fs_observer c |}.

Definition set__fs_observer (o : option Observer) (c : ProxyConnection) : ProxyConnection :=
  {| id := id c; cwd := cwd c; command_line := command_line c;
     source_file_path := source_file_path c; name := name c;
     _has_local := _has_local c; _in_grace_period := _in_grace_period c;
     _master_queue := _master_queue c; _client_queues := _client_queues c;
     _fs_observer := o |}.

(** [l.remove(x)]: drops the first item equal to [x]; [None] stands for the
    [ValueError] of a list without such an item. A [ReportQueue] is compared
    by identity. *)
Fixpoint list_remove (x : qref) (l : list qref) : option (list qref) :=
  match l with
  | [] => None
  | y :: l' =>
      if bool_decide (y = x) then Some l' else cons y <$> list_remove x l'
  end.

(** ** The file-system observer *)

(** [fs_observer.start()] *)
Definition Observer_start_call (o : Observer) : M unit :=
  emit (Observer_start (obs_path o) (obs_recursive o)) ;;
  if observer_starts (obs_path o) (obs_recursive o) then mret tt
  else raise OSError.

(** [[
    handler = FSEventHandler( **kwargs )
    fs_observer = Observer()
    fs_observer.schedule(handler, path_to_observe, recursive)
    try:
        fs_observer.start()
    except OSError as e:
        fs_observer = None
    return fs_observer
    ]] *)
Definition _initialize_fs_observer (path_to_observe : string) (recursive : bool)
    (patterns ignore_patterns : list string) : M (option Observer) :=
  let fs_observer :=
    {| obs_path := path_to_observe; obs_recursive := recursive;
       obs_patterns := patterns; obs_ignore_patterns := ignore_patterns;
       obs_stopped := false |} in
  try_except
    (Observer_start_call fs_observer ;; mret (Some fs_observer))
    OSError
    (mret None).

Definition _initialize_fs_observer_with_fallback : M (option Observer) :=
  let do_watch := proxy_watchFileSystem in
  if negb do_watch then mret None
  else
    let recursive := proxy_watchUpdatesRecursively in
    let patterns := proxy_watchPatterns in
    let ignore_patterns := proxy_ignorePatterns in
    c ← get_self;
    let path_to_observe := dirname (source_file_path c) in
    fs_observer ← _initialize_fs_observer
                    path_to_observe recursive patterns ignore_patterns;
    match fs_observer with
    | None =>
        if recursive
        then _initialize_fs_observer path_to_observe false patterns ignore_patterns
        else mret fs_observer
    | Some _ => mret fs_observer
    end.

(** ** The methods of [ProxyConnection] *)

(** The object [__init__] receives: it has no attribute yet, and every field
    written here is assigned by [__init__] before it is read. *)
Definition blank : ProxyConnection :=
  {| id := ""; cwd := ""; command_line := []; source_file_path := "";
     name := ""; _has_local := false; _in_grace_period := false;
     _master_queue := 0; _client_queues := []; _fs_observer := None |}.

(** [ProxyConnection(new_report_msg, name)], called with the objects of the
    heap [h] alive and [tr] the calls made so far. *)
Definition __init__ (new_report_msg : NewReport) (name : string)
    (h : list ReportQueue) (tr : list Effect) : outcome unit * State :=
  (setattr (set_id (msg_id new_report_msg)) ;;
   setattr (set_cwd (msg_cwd new_report_msg)) ;;
   setattr (set_command_line (msg_command_line new_report_msg)) ;;
   setattr (set_source_file_path (msg_source_file_path new_report_msg)) ;;
   setattr (set_name name) ;;
   setattr (set__has_local true) ;;
   setattr (set__in_grace_period true) ;;
   q ← queue_new;
   setattr (set__master_queue q) ;;
   setattr (set__client_queues []) ;;
   o ← _initialize_fs_observer_with_fallback;
   setattr (set__fs_observer o))
  {| self := blank; heap := h; trace := tr |}.

Definition close : M unit :=
  c ← get_self;
  match _fs_observer c with
  | Some o =>
      emit Observer_stop ;;
      emit (Observer_join 5) ;;
      setattr (set__fs_observer
                 (Some {| obs_path := obs_path o; obs_recursive := obs_recursive o;
                          obs_patterns := obs_patterns o;
                          obs_ignore_patterns := obs_ignore_patterns o;
                          obs_stopped := true |}))
  | None => mret tt
  end.

(** The call of [subprocess.Popen] is not guarded: when it raises, the
    exception leaves the method and [process.wait()] is not reached. *)
Definition _on_fs_event (event : FileSystemEvent) : M unit :=
  c ← get_self;
  emit (Popen (command_line c) (cwd c)) ;;
  if popen_starts (command_line c) (cwd c) then emit Popen_wait
  else raise OSError.

Definition finished_local_connection : M unit :=
  setattr (set__has_local false) ;;
  c ← get_self;
  queue_close (_master_queue c) ;;
  for_each (_client_queues c) queue_close.

Definition end_grace_period : M unit :=
  setattr (set__in_grace_period false).

Definition can_be_deregistered : M bool :=
  c ← get_self;
  let has_clients := 0 <? length (_client_queues c) in
  mret (negb (_in_grace_period c || _has_local c || has_clients)).

Definition enqueue (delta : Delta) : M unit :=
  c ← get_self;
  queue_call (_master_queue c) delta ;;
  for_each (_client_queues c) (fun queue => queue_call queue delta).

Definition add_client_queue : M qref :=
  end_grace_period ;;
  c ← get_self;
  new_queue ← queue_clone (_master_queue c);
  setattr (fun c => set__client_queues (_client_queues c ++ [new_queue]) c) ;;
  mret new_queue.

Definition remove_client_queue (queue : qref) : M unit :=
  c ← get_self;
  match list_remove queue (_client_queues c) with
  | Some l => setattr (set__client_queues l)
  | None => raise ValueError
  end.

(** The second component of an entry: the [str] of [json.dumps] or the
    [bytes] of [SerializeToString]. *)
Inductive content : Type :=
  | Text (s : string)
  | Bytes (b : list byte).

Definition serialize_report_to_files : M (list (string * content)) :=
  c ← get_self;
  clone ← queue_clone (_master_queue c);
  deltas ← queue_get_deltas clone;
  let local_id := local_id_str in
  let manifest :=
    [("name", JStr (name c)); ("local_id", JStr local_id);
     ("nDeltas", JInt (length deltas))] in
  mret (("reports/" +:+ id c +:+ "/manifest.json", Text (json_dumps manifest))
        :: imap (fun idx delta =>
                   ("reports/" +:+ id c +:+ "/" +:+ pretty idx +:+ ".delta",
                    Bytes (SerializeToString delta)))
                deltas).

(** ** [FSEventHandler] *)

Definition on_any_event (event : FileSystemEvent) : M unit :=
  _on_fs_event event.

(** [PatternMatchingEventHandler.dispatch], of [watchdog]: an event that
    passes the filter of the handler goes to [on_any_event] (and to the
    handler of its kind, which [FSEventHandler] leaves empty). A session
    without observer, or whose observer was stopped, gets no event. *)
Definition dispatch (event : FileSystemEvent) : M unit :=
  c ← get_self;
  match _fs_observer c with
  | Some o =>
      if negb (obs_stopped o)
         && matches_patterns event (obs_patterns o) (obs_ignore_patterns o)
      then on_any_event event
      else mret tt
  | None => mret tt
  end.

(** The observer thread takes the events of its queue one at a time. *)
Definition observer_run (events : list FileSystemEvent) : M unit :=
  for_each events dispatch.

(** ** The life of a session *)

(** The calls a session receives from the proxy and from its observer
    thread. *)
Inductive Op : Type :=
  | Enqueue (delta : Delta)
  | AddClientQueue
  | RemoveClientQueue (queue : qref)
  | FinishedLocalConnection
  | EndGracePeriod
  | CanBeDeregistered
  | SerializeReportToFiles
  | Close
  | Dispatch (event : FileSystemEvent).

(** The state a call leaves. What the call returns or raises is dropped
    here: the caller goes on with the same objects either way. *)
Definition exec (op : Op) (st : State) : State :=
  match op with
  | Enqueue delta => snd (enqueue delta st)
  | AddClientQueue => snd (add_client_queue st)
  | RemoveClientQueue queue => snd (remove_client_queue queue st)
  | FinishedLocalConnection => snd (finished_local_connection st)
  | EndGracePeriod => snd (end_grace_period st)
  | CanBeDeregistered => snd (can_be_deregistered st)
  | SerializeReportToFiles => snd (serialize_report_to_files st)
  | Close => snd (close st)
  | Dispatch event => snd (dispatch event st)
  end.

Definition run (ops : list Op) (st : State) : State :=
  fold_left (fun st op => exec op st) ops st.

(** The deltas passed to [enqueue], in call order. *)
Fixpoint enqueue_args (ops : list Op) : list Delta :=
  match ops with
  | [] => []
  | Enqueue delta :: ops' => delta :: enqueue_args ops'
  | _ :: ops' => enqueue_args ops'
  end.

(** The deltas passed to [enqueue] before the first
    [finished_local_connection]. *)
Fixpoint enqueued_before_finish (ops : list Op) : list Delta :=
  match ops with
  | [] => []
  | Enqueue delta :: ops' => delta :: enqueued_before_finish ops'
  | FinishedLocalConnection :: _ => []
  | _ :: ops' => enqueued_before_finish ops'
  end.

Definition is_finish (op : Op) : bool :=
  match op with
  | FinishedLocalConnection => true
  | _ => false
  end.

Definition is_remove_of (q : qref) (op : Op) : bool :=
  match op with
  | RemoveClientQueue q' => bool_decide (q' = q)
  | _ => false
  end.

(** No call is [finished_local_connection]: the producer stays attached. *)
Definition no_finish (ops : list Op) : bool :=
  forallb (fun op => negb (is_finish op)) ops.

(** No call is [remove_client_queue(q)]: the queue [q] stays attached. *)
Definition no_remove_of (q : qref) (ops : list Op) : bool :=
  forallb (fun op => negb (is_remove_of q op)) ops.

(** The object a reference names, as [deref] reads it. *)
Definition obj (st : State) (r : qref) : ReportQueue :=
  default ReportQueue_new (heap st !! r).

(** The deltas a queue object holds, and whether it is closed. *)
Definition deltas_of (st : State) (r : qref) : list Delta :=
  rq_deltas (obj st r).

Definition closed_of (st : State) (r : qref) : bool :=
  rq_closed (obj st r).

Definition master_deltas (st : State) : list Delta :=
  deltas_of st (_master_queue (self st)).

Definition master_closed (st : State) : bool :=
  closed_of st (_master_queue (self st)).

(** The heap after a method was called on each object of a list. *)
Definition alter_each (f : ReportQueue -> ReportQueue) (l : list qref)
    (h : list ReportQueue) : list ReportQueue :=
  fold_left (fun h r => alter f r h) l h.

(** What a call does to a queue the session holds, as master queue or as
    client queue. *)
Definition effect_on_queue (op : Op) (q : ReportQueue) : ReportQueue :=
  match op with
  | Enqueue delta => ReportQueue_call delta q
  | FinishedLocalConnection => ReportQueue_close q
  | _ => q
  end.

(** The entries of the archive of a session [c] whose master log holds
    [deltas]. *)
Definition entries_of (c : ProxyConnection) (deltas : list Delta)
    : list (string * content) :=
  ("reports/" +:+ id c +:+ "/manifest.json",
   Text (json_dumps [("name", JStr (name c)); ("local_id", JStr local_id_str);
                     ("nDeltas", JInt (length deltas))]))
  :: imap (fun idx delta =>
             ("reports/" +:+ id c +:+ "/" +:+ pretty idx +:+ ".delta",
              Bytes (SerializeToString delta)))
          deltas.

(** What Python guarantees of the references a session holds: each names an
    object, the client queues are distinct objects, and none of them is the
    master queue. *)
Definition wf (st : State) : Prop :=
  _master_queue (self st) < length (heap st)
  /\ Forall (fun q => q < length (heap st)) (_client_queues (self st))
  /\ (_master_queue (self st) ∉ _client_queues (self st))
  /\ NoDup (_client_queues (self st)).


(** The claim on file-system events, read to the letter, for a session in
    state [st] and an event: the handler starts the stored command line in
    the stored working directory and waits for the process. *)
Definition rerun_to_the_letter (st : State) (event : FileSystemEvent) : Prop :=
  on_any_event event st
  = (Return tt,
     {| self := self st; heap := heap st;
        trace := trace st
                 ++ [Popen (command_line (self st)) (cwd (self st));
                     Popen_wait] |}).

(** The claim on detaching, read to the letter: the call returns. *)
Definition detach_never_raises (st : State) (q : qref) : Prop :=
  exists st', remove_client_queue q st = (Return tt, st').

End Model.

(** ** A concrete process, for examples *)

Definition dquote : string := String (ascii_of_nat 34) "".

Definition sample_json_string (s : string) : string :=
  dquote +:+ s +:+ dquote.

Definition sample_json_value (v : json) : string :=
  match v with
  | JStr s => sample_json_string s
  | JInt n => pretty n
  end.

Definition sample_json_item (kv : string * json) : string :=
  sample_json_string (fst kv) +:+ ": " +:+ sample_json_value (snd kv).

(** The text [json.dumps] gives for a dictionary of plain strings and
    numbers. *)
Definition sample_json_dumps (d : list (string * json)) : string :=
  "{" +:+ (String.concat ", " (map sample_json_item d) +:+ "}").

(** A process whose deltas are byte strings, with the watcher switched on
    or off, in recursive mode or not, and the given fate of
    [Observer.start]. A program is started in any directory but [/gone],
    which does not exist. *)
Definition sample_process (watch recursive : bool)
    (starts : string -> bool -> bool) : Collaborators :=
  {| Delta := list byte;
     SerializeToString := fun d => d;
     json_dumps := sample_json_dumps;
     local_id_str := "4711";
     proxy_watchFileSystem := watch;
     proxy_watchUpdatesRecursively := recursive;
     proxy_watchPatterns := ["*.py"];
     proxy_ignorePatterns := ["*.pyc"];
     observer_starts := starts;
     popen_starts := fun _ cwd => negb (String.eqb cwd "/gone");
     matches_patterns := fun e _ _ => negb (ev_is_directory e) |}.

Definition no_watcher : Collaborators :=
  sample_process false true (fun _ _ => true).

Definition sample_msg : NewReport :=
  {| msg_id := "abc"; msg_cwd := "/home/u";
     msg_command_line := ["python"; "/home/u/demo.py"];
     msg_source_file_path := "/home/u/demo.py" |}.

(** A report whose working directory was deleted after the launch. *)
Definition gone_msg : NewReport :=
  {| msg_id := "abc"; msg_cwd := "/gone";
     msg_command_line := ["python"; "/home/u/demo.py"];
     msg_source_file_path := "/home/u/demo.py" |}.

Definition b0 : list byte := [x01].
Definition b1 : list byte := [x02; x03].
Definition b2 : list byte := [].

(** Recursive watching fails, flat watching works. *)
Definition recursive_fails : Collaborators :=
  sample_process true true (fun _ recursive => negb recursive).

(** Flat watching was asked for, and fails. *)
Definition flat_fails : Collaborators :=
  sample_process true false (fun _ _ => false).

(** Recursive watching was asked for, and nothing starts. *)
Definition nothing_starts : Collaborators :=
  sample_process true true (fun _ _ => false).

(** A process whose flat watcher runs. *)
Definition watching : Collaborators :=
  sample_process true false (fun _ _ => true).

Definition file_event (t : event_type) : FileSystemEvent :=
  {| ev_event_type := t; ev_src_path := "/home/u/demo.py";
     ev_is_directory := false |}.

(** A session with one client and one delta, for the properties that start
    from a well-formed state. *)
Definition sample_state : @State no_watcher :=
  @run no_watcher [AddClientQueue; @Enqueue no_watcher b0]
    (snd (@__init__ no_watcher sample_msg "demo" [] [])).

(** ** More of the life of a session *)

Section History.
Context `{Collaborators}.

(** The calls that end the grace period: [end_grace_period] itself and
    [add_client_queue], which calls it. *)
Definition ends_grace (op : Op) : bool :=
  match op with
  | EndGracePeriod | AddClientQueue => true
  | _ => false
  end.

(** No call has ended the grace period. *)
Definition still_in_grace (ops : list Op) : bool :=
  forallb (fun op => negb (ends_grace op)) ops.

Definition is_enqueue (op : Op) : bool :=
  match op with
  | Enqueue _ => true
  | _ => false
  end.

(** [close()], called [k] times in a row. *)
Fixpoint close_times (k : nat) : M unit :=
  match k with
  | 0 => mret tt
  | S k' => close ;; close_times k'
  end.

(** While the producer is attached: the master queue is open and each
    client queue is the same as the master queue, deltas and flag. *)
Definition in_step (st : State) : Prop :=
  wf st
  /\ rq_closed (obj st (_master_queue (self st))) = false
  /\ Forall (fun q => obj st q = obj st (_master_queue (self st)))
       (_client_queues (self st)).

(** The path of the entry of the delta at position [k], for the session
    id [I], as [serialize_report_to_files] writes it. *)
Definition delta_path (I : string) (k : nat) : string :=
  "reports/" +:+ I +:+ "/" +:+ pretty k +:+ ".delta".

(** The calls [close()] makes on a session with the observer [o]. *)
Definition close_calls (o : option Observer) : list Effect :=
  match o with
  | Some _ => [Observer_stop; Observer_join 5]
  | None => []
  end.

Definition stopped (o : Observer) : Observer :=
  {| obs_path := obs_path o; obs_recursive := obs_recursive o;
     obs_patterns := obs_patterns o;
     obs_ignore_patterns := obs_ignore_patterns o;
     obs_stopped := true |}.

End History.

(** * The chart builder

    A shallow embedding of the methods of [Chart], in
    [local/server/streamlet/local/Chart.py], that complete a chart with the
    components its type requires: [append_component], [_materializeValue]
    and [_append_missing_data_components]. *)

(** What [Chart.py] imports and does not define: the class [ChartComponent],
    with its constructor and its attribute [type], and the method [get] of
    the [ValueCycler] of [chartconfig]. An [atom] is a Python value that is
    none of the markers [ColumnAtIndex], [ColumnAtCurrentIndex] and
    [ValueCycler]: a column label, a string, a number. *)
Class ChartCollaborators : Type := {
  atom : Type;
  cycler : Type;
  ValueCycler_get : cycler -> nat -> atom;
  ChartComponent : Type;
  (** [ChartComponent(component_name, props)], with [props] a dictionary
      ([inl]) or a single value ([inr]) *)
  ChartComponent_new : string -> list (string * atom) + atom -> ChartComponent;
  (** [c.type] *)
  ChartComponent_type : ChartComponent -> string
}.

(** The exceptions of the methods. *)
Inductive chart_exn : Type :=
  | IndexError
  | NotImplementedError.

Inductive chart_outcome (A : Type) : Type :=
  | Done (a : A)
  | Throw (e : chart_exn).
Arguments Done {A} a.
Arguments Throw {A} e.

Section ChartModel.
Context `{ChartCollaborators}.

(** A value of a required component, as [_materializeValue] tells them
    apart by [type(value)]. *)
Inductive value : Type :=
  | ColumnAtIndex (index : Z)
  | ColumnAtCurrentIndex
  | ValueCycler (c : cycler)
  | Other (a : atom).

(** [comp_value]: a dictionary of values, or one value. *)
Inductive component_value : Type :=
  | DictValue (items : list (string * value))
  | PlainValue (v : value).

(** An item of a tuple of [REQUIRED_COMPONENTS]: a [ForEachColumn], whose
    [prop] is a pair, or the pair itself. *)
Inductive required_component : Type :=
  | ForEachColumn (prop : string * component_value)
  | Once (prop : string * component_value).

(** The attributes of a [Chart]; [_columns] stands for
    [self._data.columns]. *)
Record Chart : Type := {
  _columns : list atom;
  _type : string;
  _width : Z;
  _height : Z;
  _components : list ChartComponent;
  _props : list (string * string)
}.

Definition set__components (l : list ChartComponent) (self : Chart) : Chart :=
  {| _columns := _columns self; _type := _type self; _width := _width self;
     _height := _height self; _components := l; _props := _props self |}.

(** [self._components.append(ChartComponent(component_name, props))] *)
Definition append_component (self : Chart) (component_name : string)
    (props : list (string * atom) + atom) : Chart :=
  set__components
    (_components self ++ [ChartComponent_new component_name props]) self.

(** [columns[index]], for a Python integer: a negative index counts from
    the end, and an index outside the sequence raises [IndexError]. *)
Definition columns_getitem (columns : list atom) (index : Z) : chart_outcome atom :=
  let n := Z.of_nat (length columns) in
  let i := if (index <? 0)%Z then (n + index)%Z else index in
  if (i <? 0)%Z then Throw IndexError
  else match columns !! Z.to_nat i with
       | Some c => Done c
       | None => Throw IndexError
       end.

Definition _materializeValue (self : Chart) (v : value) (currCycle : nat)
    : chart_outcome atom :=
  let check index :=
    if (Z.of_nat (length (_columns self)) <=? index)%Z then Throw IndexError
    else columns_getitem (_columns self) index in
  match v with
  | ColumnAtIndex index => check index
  | ColumnAtCurrentIndex => check (Z.of_nat currCycle)
  | ValueCycler c => Done (ValueCycler_get c currCycle)
  | Other a => Done a
  end.

(** [{k: self._materializeValue(v, i) for (k, v) in comp_value.items()}] *)
Fixpoint materialize_items (self : Chart) (items : list (string * value))
    (i : nat) : chart_outcome (list (string * atom)) :=
  match items with
  | [] => Done []
  | (k, v) :: items' =>
      match _materializeValue self v i with
      | Done a =>
          match materialize_items self items' i with
          | Done l => Done ((k, a) :: l)
          | Throw e => Throw e
          end
      | Throw e => Throw e
      end
  end.

(** The [props] of the repeat [i], for either kind of [comp_value]. *)
Definition materialize_props (self : Chart) (comp_value : component_value)
    (i : nat) : chart_outcome (list (string * atom) + atom) :=
  match comp_value with
  | DictValue items =>
      match materialize_items self items i with
      | Done l => Done (inl l)
      | Throw e => Throw e
      end
  | PlainValue v =>
      match _materializeValue self v i with
      | Done a => Done (inr a)
      | Throw e => Throw e
      end
  end.

(** [for i in range(numRepeats): ...], on the indices still to do. *)
Fixpoint append_repeats (self : Chart) (comp_name : string)
    (comp_value : component_value) (indices : list nat)
    : chart_outcome unit * Chart :=
  match indices with
  | [] => (Done tt, self)
  | i :: indices' =>
      match materialize_props self comp_value i with
      | Done props =>
          append_repeats (append_component self comp_name props)
            comp_name comp_value indices'
      | Throw e => (Throw e, self)
      end
  end.

Definition numRepeats (self : Chart) (r : required_component) : nat :=
  match r with
  | ForEachColumn _ => length (_columns self)
  | Once _ => 1
  end.

Definition prop_of (r : required_component) : string * component_value :=
  match r with
  | ForEachColumn prop => prop
  | Once prop => prop
  end.

(** [for missing_required_component in missing_required_components: ...],
    with the set [existing_component_names] computed before the loop. *)
Fixpoint append_missing (existing_component_names : gset string)
    (self : Chart) (missing : list required_component)
    : chart_outcome unit * Chart :=
  match missing with
  | [] => (Done tt, self)
  | r :: missing' =>
      let '(comp_name, comp_value) := prop_of r in
      if bool_decide (comp_name ∈ existing_component_names)
      then append_missing existing_component_names self missing'
      else
        match append_repeats self comp_name comp_value
                (seq 0 (numRepeats self r)) with
        | (Done _, self') =>
            append_missing existing_component_names self' missing'
        | (Throw e, self') => (Throw e, self')
        end
  end.

(** [existing_component_names = set(c.type for c in self._components)] *)
Definition component_names (self : Chart) : gset string :=
  list_to_set (ChartComponent_type <$> _components self).

(** The method, with the dictionary [REQUIRED_COMPONENTS] of [chartconfig]
    as a parameter: [None] where the dictionary has no key. *)
Definition _append_missing_data_components
    (REQUIRED_COMPONENTS : string -> option (list required_component))
    (self : Chart) : chart_outcome unit * Chart :=
  match REQUIRED_COMPONENTS (_type self) with
  | None => (Done tt, self)
  | Some missing_required_components =>
      append_missing (component_names self) self missing_required_components
  end.

(** A required component that refers to columns through
    [ColumnAtCurrentIndex] only. *)
Definition no_fixed_column (v : value) : bool :=
  match v with
  | ColumnAtIndex _ => false
  | _ => true
  end.

Definition no_fixed_columns (r : required_component) : bool :=
  match snd (prop_of r) with
  | DictValue items => forallb (fun kv => no_fixed_column (snd kv)) items
  | PlainValue v => no_fixed_column v
  end.

Definition is_for_each (r : required_component) : bool :=
  match r with
  | ForEachColumn _ => true
  | Once _ => false
  end.

(** The method [register_component(component_name, implemented)] adds to
    [Chart]: [c.component_name( **props )]. It returns [self], the chart it
    was called on. *)
Definition append_component_method (component_name : string)
    (implemented : bool) (self : Chart) (props : list (string * atom))
    : chart_outcome unit * Chart :=
  if implemented
  then (Done tt, append_component self component_name (inl props))
  else (Throw NotImplementedError, self).

(** A call in builder notation: the component, whether it is implemented,
    and the keyword arguments. *)
Definition builder_call : Type := string * bool * list (string * atom).

(** [chart.a(...).b(...)...]: each method is called on the chart the one
    before returned, and an exception ends the chain. *)
Fixpoint builder_chain (calls : list builder_call) (self : Chart)
    : chart_outcome unit * Chart :=
  match calls with
  | [] => (Done tt, self)
  | (component_name, implemented, props) :: calls' =>
      match append_component_method component_name implemented self props with
      | (Done _, self') => builder_chain calls' self'
      | (Throw e, self') => (Throw e, self')
      end
  end.

Definition component_of_call (call : builder_call) : ChartComponent :=
  ChartComponent_new (fst (fst call)) (inl (snd call)).

End ChartModel.

(** ** A concrete chart, for examples *)

(** Labels and values are strings, a [ValueCycler] goes round its items, and
    a component is the pair of its name and its props. *)
Definition sample_charts : ChartCollaborators :=
  {| atom := string;
     cycler := list string;
     ValueCycler_get := fun c i => nth (i mod length c) c "";
     ChartComponent := string * (list (string * string) + string);
     ChartComponent_new := fun component_name props => (component_name, props);
     ChartComponent_type := fst |}.

Definition sample_required (chart_type : string)
    : option (list (@required_component sample_charts)) :=
  if String.eqb chart_type "line_chart"
  then Some [ForEachColumn
               ("line",
                DictValue [("data_key", ColumnAtCurrentIndex);
                           ("type", Other ("monotone" : @atom sample_charts));
                           ("stroke",
                            ValueCycler
                              (["#8884d8"; "#82ca9d"] : @cycler sample_charts))])]
  else if String.eqb chart_type "pie_chart"
  then Some [Once ("pie", DictValue [("data_key", ColumnAtIndex 1)])]
  else None.

Definition sample_chart (chart_type : string) (columns : list string)
    : @Chart sample_charts :=
  @Build_Chart sample_charts columns chart_type 600 300 [] [].

(** * Properties *)

Section Properties.
Context `{Collaborators}.

(** ** Computing with methods *)

Ltac unfold_m :=
  unfold mbind, mret, M_bind, M_ret, bind, ret, raise, try_except,
    get_self, setattr, emit, alloc, deref, update in *.

Ltac unfold_queue :=
  unfold queue_new, queue_call, queue_close, queue_clone, queue_get_deltas in *.

Lemma for_each_update (f : ReportQueue -> ReportQueue) (l : list qref) (st : State) :
  for_each l (fun r => update r f) st
  = (Return tt,
     {| self := self st; heap := alter_each f l (heap st); trace := trace st |}).
Proof.
  revert st. induction l as [|r l IH]; intros st.
  - destruct st. reflexivity.
  - cbn [for_each]. unfold_m. cbn. rewrite IH. reflexivity.
Qed.

Lemma length_alter_each f l h : length (alter_each f l h) = length h.
Proof.
  unfold alter_each. revert h.
  induction l as [|r l IH]; intros h; cbn [fold_left]; [done|].
  rewrite IH. apply length_alter.
Qed.

Lemma lookup_alter_each_notin f l h (r : qref) :
  r ∉ l -> alter_each f l h !! r = h !! r.
Proof.
  unfold alter_each. revert h.
  induction l as [|r' l IH]; intros h Hr; cbn [fold_left]; [done|].
  apply not_elem_of_cons in Hr as [Hne Hr].
  rewrite IH by done. apply list_lookup_alter_ne. congruence.
Qed.

Lemma lookup_alter_each_in f l h (r : qref) :
  NoDup l -> r ∈ l -> alter_each f l h !! r = f <$> h !! r.
Proof.
  revert h. induction l as [|r' l IH]; intros h Hnd Hr.
  - by apply elem_of_nil in Hr.
  - apply NoDup_cons in Hnd as [Hnotin Hnd].
    change (alter_each f (r' :: l) h) with (alter_each f l (alter f r' h)).
    apply elem_of_cons in Hr as [->|Hr].
    + rewrite lookup_alter_each_notin by done.
      rewrite list_lookup_alter. by case_decide.
    + rewrite IH by done.
      rewrite list_lookup_alter_ne; [done|]. intros ->. done.
Qed.

(** A method that leaves the named objects as they are leaves the heap as
    it is. *)
Lemma alter_fixed (f : ReportQueue -> ReportQueue) (r : qref)
    (h : list ReportQueue) :
  (forall q, h !! r = Some q -> f q = q) -> alter f r h = h.
Proof.
  intros Hf. apply list_eq. intros i. rewrite list_lookup_alter.
  case_decide; [subst|done].
  destruct (h !! i) eqn:E; cbn; [|done]. f_equal. by apply Hf.
Qed.

Lemma alter_each_fixed (f : ReportQueue -> ReportQueue) (l : list qref)
    (h : list ReportQueue) :
  (forall r q, r ∈ l -> h !! r = Some q -> f q = q) -> alter_each f l h = h.
Proof.
  induction l as [|r l IH]; intros Hf; [done|].
  change (alter_each f (r :: l) h) with (alter_each f l (alter f r h)).
  rewrite alter_fixed.
  - apply IH. intros r' q Hr'. apply Hf. by right.
  - intros q. apply Hf. by left.
Qed.

(** ** What each method does to the state *)

Lemma enqueue_eq (delta : Delta) (st : State) :
  enqueue delta st
  = (Return tt,
     {| self := self st;
        heap := alter_each (ReportQueue_call delta) (_client_queues (self st))
                  (alter (ReportQueue_call delta) (_master_queue (self st)) (heap st));
        trace := trace st |}).
Proof.
  unfold enqueue, queue_call. unfold mbind, M_bind, bind, get_self.
  unfold update at 1. rewrite for_each_update. reflexivity.
Qed.

Lemma finished_local_connection_eq (st : State) :
  finished_local_connection st
  = (Return tt,
     {| self := set__has_local false (self st);
        heap := alter_each ReportQueue_close (_client_queues (self st))
                  (alter ReportQueue_close (_master_queue (self st)) (heap st));
        trace := trace st |}).
Proof.
  unfold finished_local_connection, queue_close.
  unfold mbind, M_bind, bind, get_self, setattr.
  unfold update at 1. cbn [self heap trace]. rewrite for_each_update. reflexivity.
Qed.

Lemma add_client_queue_eq (st : State) :
  add_client_queue st
  = (Return (length (heap st)),
     {| self := set__client_queues (_client_queues (self st) ++ [length (heap st)])
                  (set__in_grace_period false (self st));
        heap := heap st
                ++ [ReportQueue_clone
                      (default ReportQueue_new (heap st !! _master_queue (self st)))];
        trace := trace st |}).
Proof. reflexivity. Qed.

Lemma remove_client_queue_eq (queue : qref) (st : State) :
  remove_client_queue queue st
  = match list_remove queue (_client_queues (self st)) with
    | Some l =>
        (Return tt,
         {| self := set__client_queues l (self st);
            heap := heap st; trace := trace st |})
    | None => (Raise ValueError, st)
    end.
Proof.
  unfold remove_client_queue. unfold_m. cbn.
  destruct (list_remove queue (_client_queues (self st))); reflexivity.
Qed.

Lemma serialize_report_to_files_eq (st : State) :
  serialize_report_to_files st
  = (Return (entries_of (self st) (master_deltas st)),
     {| self := self st;
        heap := heap st
                ++ [{| rq_deltas := []; rq_closed := false |}];
        trace := trace st |}).
Proof.
  unfold serialize_report_to_files. unfold_queue. unfold_m. cbn.
  rewrite lookup_app_r by lia. rewrite Nat.sub_diag. cbn.
  unfold entries_of, master_deltas, deltas_of, obj. do 3 f_equal.
  rewrite alter_app_r_alt by lia. rewrite Nat.sub_diag. reflexivity.
Qed.

Lemma close_frame (st : State) :
  fst (close st) = Return tt
  /\ heap (snd (close st)) = heap st
  /\ set__fs_observer None (self (snd (close st))) = set__fs_observer None (self st).
Proof.
  unfold close. unfold_m. cbn.
  destruct (_fs_observer (self st)); cbn; auto.
Qed.

Lemma dispatch_frame (event : FileSystemEvent) (st : State) :
  (fst (dispatch event st) = Return tt
   \/ fst (dispatch event st) = Raise OSError)
  /\ heap (snd (dispatch event st)) = heap st
  /\ self (snd (dispatch event st)) = self st.
Proof.
  unfold dispatch, on_any_event, _on_fs_event. unfold_m. cbn.
  destruct (_fs_observer (self st)) as [o|]; cbn; auto.
  destruct (negb (obs_stopped o) && matches_patterns _ _ _); cbn; auto.
  destruct (popen_starts _ _); cbn; auto.
Qed.

(** The attributes other than [_fs_observer] agree. *)
Lemma same_but_observer (c c' : ProxyConnection) :
  set__fs_observer None c' = set__fs_observer None c ->
  _has_local c' = _has_local c
  /\ _in_grace_period c' = _in_grace_period c
  /\ _master_queue c' = _master_queue c
  /\ _client_queues c' = _client_queues c
  /\ id c' = id c /\ name c' = name c
  /\ command_line c' = command_line c /\ cwd c' = cwd c.
Proof. destruct c, c'. cbn. intros [= -> -> -> -> -> -> -> -> ->]. tauto. Qed.

(** ** [list.remove] *)

Lemma list_remove_None (x : qref) (l : list qref) :
  list_remove x l = None <-> x ∉ l.
Proof.
  induction l as [|y l IH]; cbn.
  - split; [intros _; apply not_elem_of_nil | done].
  - case_bool_decide as E.
    + split; [done|]. intros Hx. exfalso. apply Hx. subst. left.
    + rewrite not_elem_of_cons. destruct (list_remove x l); cbn.
      * split; [done|]. intros [_ Hx]. by apply IH in Hx.
      * split; [|done]. intros _. split; [congruence | by apply IH].
Qed.

Lemma list_remove_sublist (x : qref) (l l' : list qref) :
  list_remove x l = Some l' -> l' `sublist_of` l.
Proof.
  revert l'. induction l as [|y l IH]; intros l'; cbn; [done|].
  case_bool_decide.
  - intros [= ->]. by apply sublist_cons.
  - destruct (list_remove x l) as [l0|]; cbn; [|done].
    intros [= <-]. apply sublist_skip. by apply IH.
Qed.

Lemma list_remove_other (x q : qref) (l l' : list qref) :
  list_remove x l = Some l' -> q <> x -> q ∈ l -> q ∈ l'.
Proof.
  revert l'. induction l as [|y l IH]; intros l'; cbn; [done|].
  case_bool_decide.
  - intros [= ->] Hne [?|?]%elem_of_cons; [congruence | done].
  - destruct (list_remove x l) as [l0|]; cbn; [|done].
    intros [= <-] Hne [->|?]%elem_of_cons; [left | right; eauto].
Qed.

(** ** Well-formed states *)

Lemma init_shape (new_report_msg : NewReport) (name0 : string)
    (h : list ReportQueue) (tr : list Effect) :
  exists o tr',
    __init__ new_report_msg name0 h tr
    = (Return tt,
       {| self :=
            {| id := msg_id new_report_msg;
               cwd := msg_cwd new_report_msg;
               command_line := msg_command_line new_report_msg;
               source_file_path := msg_source_file_path new_report_msg;
               name := name0;
               _has_local := true;
               _in_grace_period := true;
               _master_queue := length h;
               _client_queues := [];
               _fs_observer := o |};
          heap := h ++ [ReportQueue_new];
          trace := tr' |}).
Proof.
  unfold __init__, _initialize_fs_observer_with_fallback,
    _initialize_fs_observer, Observer_start_call.
  unfold_queue. unfold_m. cbn.
  destruct proxy_watchFileSystem; cbn; [|eauto].
  destruct (observer_starts _ proxy_watchUpdatesRecursively); cbn; [eauto|].
  destruct proxy_watchUpdatesRecursively; cbn; [|eauto].
  destruct (observer_starts _ false); cbn; eauto.
Qed.

Lemma init_wf (new_report_msg : NewReport) (name0 : string)
    (h : list ReportQueue) (tr : list Effect) :
  wf (snd (__init__ new_report_msg name0 h tr)).
Proof.
  destruct (init_shape new_report_msg name0 h tr) as (o & tr' & ->).
  unfold wf. cbn. rewrite length_app. cbn.
  repeat split; [lia | constructor | apply not_elem_of_nil | constructor].
Qed.

Lemma exec_wf (op : Op) (st : State) : wf st -> wf (exec op st).
Proof.
  intros (Hm & Hc & Hmc & Hnd). destruct op; cbn [exec].
  - rewrite enqueue_eq. unfold wf. cbn.
    rewrite length_alter_each, length_alter. done.
  - rewrite add_client_queue_eq. unfold wf. cbn.
    rewrite length_app. cbn. repeat split.
    + lia.
    + apply Forall_app. split; [|constructor; [lia|constructor]].
      eapply Forall_impl; [exact Hc|]. cbn. lia.
    + rewrite elem_of_app, list_elem_of_singleton. intros [?|?]; [done|lia].
    + apply NoDup_app. repeat split; [done| |apply NoDup_singleton].
      intros x Hx ->%list_elem_of_singleton.
      rewrite Forall_forall in Hc. apply Hc in Hx. lia.
  - rewrite remove_client_queue_eq.
    destruct (list_remove queue (_client_queues (self st))) as [l|] eqn:E;
      [|done].
    apply list_remove_sublist in E. unfold wf. cbn. repeat split.
    + done.
    + rewrite Forall_forall in Hc |- *. intros x Hx.
      apply Hc. eapply elem_of_sublist; eauto.
    + intros Hin. apply Hmc. eapply elem_of_sublist; eauto.
    + eapply sublist_NoDup; eauto.
  - rewrite finished_local_connection_eq. unfold wf. cbn.
    rewrite length_alter_each, length_alter. done.
  - done.
  - done.
  - rewrite serialize_report_to_files_eq. unfold wf. cbn.
    rewrite length_app. cbn. repeat split; [lia| |done|done].
    eapply Forall_impl; [exact Hc|]. cbn. lia.
  - destruct (close_frame st) as (_ & Hh & Hs).
    apply same_but_observer in Hs as (_ & _ & Hm' & Hc' & _).
    unfold wf. rewrite Hh, Hm', Hc'. done.
  - destruct (dispatch_frame event st) as (_ & Hh & Hs).
    unfold wf. rewrite Hh, Hs. done.
Qed.

Lemma run_wf (ops : list Op) (st : State) : wf st -> wf (run ops st).
Proof.
  revert st. induction ops as [|op ops IH]; intros st Hwf; [done|].
  apply IH. by apply exec_wf.
Qed.

(** ** Teardown *)

(** C2, teardown eligibility: in every state [can_be_deregistered] returns,
    leaves the state as it is, and answers [True] exactly when the grace
    period has ended, no producer is attached and there is no client queue;
    it answers [False] exactly when one of the three fails. *)
Theorem can_be_deregistered_iff (st : State) :
  exists b : bool,
    can_be_deregistered st = (Return b, st)
    /\ (b = true <->
        _in_grace_period (self st) = false
        /\ _has_local (self st) = false
        /\ _client_queues (self st) = [])
    /\ (b = false <->
        _in_grace_period (self st) = true
        \/ _has_local (self st) = true
        \/ _client_queues (self st) <> []).
Proof.
  unfold can_be_deregistered. unfold_m. cbn.
  eexists. split; [reflexivity|].
  destruct (_in_grace_period (self st)), (_has_local (self st)),
    (_client_queues (self st)) as [|q l]; cbn;
    repeat split; intros; try done; try tauto;
    repeat match goal with
           | Hx : _ /\ _ |- _ => destruct Hx
           | Hx : _ \/ _ |- _ => destruct Hx
           end; try done; auto.
Qed.

(** ** Attaching and detaching *)


(** C8, attach: in every state, whatever [_has_local] and the master log
    are, [add_client_queue] returns a reference to a new object, which is
    the clone of the master queue, ends the grace period, and appends the
    reference to [_client_queues]; it changes no other object and no other
    attribute. *)
Theorem add_client_queue_attach (st : State) :
  exists (new_queue : qref) (st' : State),
    add_client_queue st = (Return new_queue, st')
    /\ _in_grace_period (self st') = false
    /\ heap st !! new_queue = None
    /\ heap st' = heap st
                  ++ [ReportQueue_clone
                        (default ReportQueue_new (heap st !! _master_queue (self st)))]
    /\ heap st' !! new_queue
       = Some (ReportQueue_clone
                 (default ReportQueue_new (heap st !! _master_queue (self st))))
    /\ deltas_of st' new_queue = master_deltas st
    /\ _client_queues (self st') = _client_queues (self st) ++ [new_queue]
    /\ _has_local (self st') = _has_local (self st)
    /\ _master_queue (self st') = _master_queue (self st).
Proof.
  rewrite add_client_queue_eq. do 2 eexists. split; [reflexivity|]. cbn.
  assert (forall q : ReportQueue, (heap st ++ [q]) !! length (heap st) = Some q)
    as Hnew.
  { intros q. rewrite lookup_app_r by lia. by rewrite Nat.sub_diag. }
  unfold master_deltas, deltas_of, obj. cbn. rewrite !Hnew.
  repeat split. by apply lookup_ge_None.
Qed.

(** C4 as amended, detaching a queue that is not attached: when the queue
    is not in [_client_queues], because it never was or because it was
    removed, [remove_client_queue] raises [ValueError] to its caller and
    leaves the session, the heap and the trace as they are. *)
Theorem remove_client_queue_not_found (st : State) (queue : qref) :
  queue ∉ _client_queues (self st) ->
  remove_client_queue queue st = (Raise ValueError, st).
Proof.
  intros Hq. rewrite remove_client_queue_eq.
  apply list_remove_None in Hq. by rewrite Hq.
Qed.

(** ** The grace period *)

Lemma exec_in_grace_period (op : Op) (st : State) :
  _in_grace_period (self st) = false ->
  _in_grace_period (self (exec op st)) = false.
Proof.
  intros Hg. destruct op; cbn [exec].
  - by rewrite enqueue_eq.
  - by rewrite add_client_queue_eq.
  - rewrite remove_client_queue_eq.
    by destruct (list_remove queue (_client_queues (self st))).
  - by rewrite finished_local_connection_eq.
  - done.
  - done.
  - by rewrite serialize_report_to_files_eq.
  - destruct (close_frame st) as (_ & _ & Hs).
    apply same_but_observer in Hs as (_ & -> & _). done.
  - destruct (dispatch_frame event st) as (_ & _ & ->). done.
Qed.

(** C9, the grace period is monotonic: [__init__] returns a session whose
    [_in_grace_period] is [True]; once the flag is [False], no call of
    [enqueue], [add_client_queue], [remove_client_queue],
    [finished_local_connection], [end_grace_period], [can_be_deregistered],
    [serialize_report_to_files] or [close], nor an event of the observer,
    and no sequence of such calls, sets it back to [True]. *)
Theorem grace_period_monotonic :
  (forall (new_report_msg : NewReport) (name0 : string)
          (h : list ReportQueue) (tr : list Effect),
      fst (__init__ new_report_msg name0 h tr) = Return tt
      /\ _in_grace_period (self (snd (__init__ new_report_msg name0 h tr))) = true)
  /\ (forall (op : Op) (st : State),
         _in_grace_period (self st) = false ->
         _in_grace_period (self (exec op st)) = false)
  /\ (forall (ops : list Op) (st : State),
         _in_grace_period (self st) = false ->
         _in_grace_period (self (run ops st)) = false).
Proof.
  split; [|split].
  - intros m n h tr. destruct (init_shape m n h tr) as (o & tr' & ->). done.
  - apply exec_in_grace_period.
  - intros ops. induction ops as [|op ops IH]; intros st Hg; [done|].
    cbn. apply IH. by apply exec_in_grace_period.
Qed.

(** ** Following one queue through the calls *)

Lemma lookup_broadcast (f : ReportQueue -> ReportQueue) (st : State) (r : qref) :
  wf st ->
  r = _master_queue (self st) \/ r ∈ _client_queues (self st) ->
  alter_each f (_client_queues (self st))
    (alter f (_master_queue (self st)) (heap st)) !! r
  = f <$> heap st !! r.
Proof.
  intros (Hm & Hc & Hmc & Hnd) [->|Hr].
  - rewrite lookup_alter_each_notin by done.
    rewrite list_lookup_alter. by case_decide.
  - rewrite lookup_alter_each_in by done.
    rewrite list_lookup_alter_ne; [done|]. by intros <-.
Qed.

Lemma held_lt (st : State) (r : qref) :
  wf st ->
  r = _master_queue (self st) \/ r ∈ _client_queues (self st) ->
  r < length (heap st).
Proof.
  intros (Hm & Hc & _) [->|Hr]; [done|].
  rewrite Forall_forall in Hc. by apply Hc.
Qed.

Lemma obj_app_l (st : State) (h' : list ReportQueue) (c : ProxyConnection)
    (tr : list Effect) (r : qref) :
  r < length (heap st) ->
  obj {| self := c; heap := heap st ++ h'; trace := tr |} r = obj st r.
Proof. intros Hr. unfold obj. cbn. by rewrite lookup_app_l. Qed.

Lemma exec_obj (op : Op) (st : State) (r : qref) :
  wf st ->
  r = _master_queue (self st)
  \/ (r ∈ _client_queues (self st) /\ is_remove_of r op = false) ->
  obj (exec op st) r = effect_on_queue op (obj st r)
  /\ _master_queue (self (exec op st)) = _master_queue (self st)
  /\ (r ∈ _client_queues (self st) -> r ∈ _client_queues (self (exec op st))).
Proof.
  intros Hwf Hr.
  assert (r = _master_queue (self st) \/ r ∈ _client_queues (self st)) as Hheld
    by tauto.
  pose proof (held_lt st r Hwf Hheld) as Hlt.
  destruct (lookup_lt_is_Some_2 _ _ Hlt) as [q Hq].
  destruct op; cbn [exec effect_on_queue].
  - rewrite enqueue_eq. unfold obj. cbn.
    rewrite lookup_broadcast by done. rewrite Hq. done.
  - rewrite add_client_queue_eq. cbn [snd]. rewrite obj_app_l by done. cbn.
    repeat split. intros Hin. apply elem_of_app. by left.
  - rewrite remove_client_queue_eq.
    destruct (list_remove queue (_client_queues (self st))) as [l|] eqn:E;
      [|done].
    unfold obj. cbn. repeat split. intros Hin.
    destruct Hr as [->|[_ Hrm]]; [by destruct Hwf as (_ & _ & ? & _)|].
    cbn in Hrm. apply bool_decide_eq_false in Hrm.
    eapply list_remove_other; eauto.
  - rewrite finished_local_connection_eq. unfold obj. cbn.
    rewrite lookup_broadcast by done. rewrite Hq. done.
  - done.
  - done.
  - rewrite serialize_report_to_files_eq. cbn [snd]. rewrite obj_app_l by done.
    done.
  - destruct (close_frame st) as (_ & Hh & Hs).
    apply same_but_observer in Hs as (_ & _ & Hm' & Hc' & _).
    unfold obj. rewrite Hh, Hm', Hc'. done.
  - destruct (dispatch_frame event st) as (_ & Hh & Hs).
    unfold obj. rewrite Hh, Hs. done.
Qed.

Lemma run_obj (ops : list Op) (st : State) (r : qref) :
  wf st ->
  r = _master_queue (self st)
  \/ (r ∈ _client_queues (self st) /\ no_remove_of r ops = true) ->
  deltas_of (run ops st) r
  = deltas_of st r ++ (if closed_of st r then [] else enqueued_before_finish ops)
  /\ closed_of (run ops st) r = closed_of st r || negb (no_finish ops)
  /\ _master_queue (self (run ops st)) = _master_queue (self st)
  /\ (r ∈ _client_queues (self st) -> r ∈ _client_queues (self (run ops st))).
Proof.
  revert st. induction ops as [|op ops IH]; intros st Hwf Hr.
  - cbn. rewrite orb_false_r. by destruct (closed_of st r); rewrite app_nil_r.
  - assert (r = _master_queue (self st)
            \/ (r ∈ _client_queues (self st) /\ is_remove_of r op = false)) as Hr1.
    { destruct Hr as [?|[? Hn]]; [by left|right]. split; [done|].
      cbn in Hn. apply andb_true_iff in Hn as [Hn _].
      by apply negb_true_iff in Hn. }
    destruct (exec_obj op st r Hwf Hr1) as (Ho & Hm & Hc).
    assert (r = _master_queue (self (exec op st))
            \/ (r ∈ _client_queues (self (exec op st))
                /\ no_remove_of r ops = true)) as Hr2.
    { destruct Hr as [?|[? Hn]]; [left; congruence|right]. split; [auto|].
      cbn in Hn. by apply andb_true_iff in Hn as [_ Hn]. }
    destruct (IH (exec op st) (exec_wf op st Hwf) Hr2) as (Hd & Hcl & Hm2 & Hc2).
    change (run (op :: ops) st) with (run ops (exec op st)).
    rewrite Hd, Hcl, Hm2, Hm. unfold deltas_of, closed_of. rewrite Ho.
    split; [|split; [|split; [done|auto]]].
    + destruct op; cbn [effect_on_queue enqueued_before_finish]; try done.
      * unfold ReportQueue_call. destruct (rq_closed (obj st r)) eqn:E; cbn.
        -- by rewrite E.
        -- by rewrite <- app_assoc.
      * cbn. by destruct (rq_closed (obj st r)).
    + destruct op; cbn; try done.
      * unfold ReportQueue_call, no_finish.
        destruct (rq_closed (obj st r)) eqn:E; cbn; by rewrite ?E.
      * by rewrite orb_true_r.
Qed.

Lemma no_finish_enqueue_args (ops : list Op) :
  no_finish ops = true -> enqueued_before_finish ops = enqueue_args ops.
Proof.
  induction ops as [|op ops IH]; [done|]. cbn.
  intros [Hop Hops]%andb_true_iff. destruct op; cbn in *; try done; auto.
  by rewrite IH.
Qed.

Lemma exec_identity (op : Op) (st : State) :
  id (self (exec op st)) = id (self st)
  /\ name (self (exec op st)) = name (self st)
  /\ command_line (self (exec op st)) = command_line (self st)
  /\ cwd (self (exec op st)) = cwd (self st).
Proof.
  destruct op; cbn [exec].
  - by rewrite enqueue_eq.
  - by rewrite add_client_queue_eq.
  - rewrite remove_client_queue_eq.
    by destruct (list_remove queue (_client_queues (self st))).
  - by rewrite finished_local_connection_eq.
  - done.
  - done.
  - by rewrite serialize_report_to_files_eq.
  - destruct (close_frame st) as (_ & _ & Hs).
    apply same_but_observer in Hs. tauto.
  - destruct (dispatch_frame event st) as (_ & _ & ->). done.
Qed.

Lemma run_identity (ops : list Op) (st : State) :
  id (self (run ops st)) = id (self st)
  /\ name (self (run ops st)) = name (self st)
  /\ command_line (self (run ops st)) = command_line (self st)
  /\ cwd (self (run ops st)) = cwd (self st).
Proof.
  revert st. induction ops as [|op ops IH]; intros st; [done|].
  change (run (op :: ops) st) with (run ops (exec op st)).
  destruct (IH (exec op st)) as (-> & -> & -> & ->). apply exec_identity.
Qed.

(** The master log of a session holds the deltas enqueued since its
    creation, up to the first [finished_local_connection]. *)
Lemma master_log_history (new_report_msg : NewReport) (name0 : string)
    (h : list ReportQueue) (tr : list Effect) (ops : list Op) :
  master_deltas (run ops (snd (__init__ new_report_msg name0 h tr)))
  = enqueued_before_finish ops
  /\ master_closed (run ops (snd (__init__ new_report_msg name0 h tr)))
     = negb (no_finish ops).
Proof.
  pose proof (init_wf new_report_msg name0 h tr) as Hwf.
  destruct (run_obj ops _ _ Hwf (or_introl eq_refl)) as (Hd & Hc & Hm & _).
  unfold master_deltas, master_closed. rewrite Hm, Hd, Hc.
  destruct (init_shape new_report_msg name0 h tr) as (o & tr' & ->).
  unfold deltas_of, closed_of, obj. cbn.
  rewrite lookup_app_r by lia. rewrite Nat.sub_diag. done.
Qed.

(** ** Replay *)


(** ** Enqueueing after the close *)

(** C3, post-close drop: right after [finished_local_connection], a call of
    [enqueue] returns without raising and leaves the whole state as it is;
    after any further calls [ops], a call of [enqueue] still returns without
    raising, leaves the master log as it is, and leaves the entries of
    [serialize_report_to_files], hence their count, as they are. *)
Theorem post_close_drop (st : State) (ops : list Op) (delta : Delta) :
  wf st ->
  let st0 := snd (finished_local_connection st) in
  let st1 := run ops st0 in
  enqueue delta st0 = (Return tt, st0)
  /\ fst (enqueue delta st1) = Return tt
  /\ obj (snd (enqueue delta st1)) (_master_queue (self st1))
     = obj st1 (_master_queue (self st1))
  /\ master_deltas (snd (enqueue delta st1)) = master_deltas st1
  /\ fst (serialize_report_to_files (snd (enqueue delta st1)))
     = fst (serialize_report_to_files st1).
Proof.
  intros Hwf st0 st1.
  assert (wf st0) as Hwf0 by apply (exec_wf FinishedLocalConnection st Hwf).
  assert (wf st1) as Hwf1 by by apply run_wf.
  split.
  - rewrite enqueue_eq. subst st0. rewrite finished_local_connection_eq.
    cbn [snd self heap trace].
    assert (forall r q,
               r = _master_queue (self st) \/ r ∈ _client_queues (self st) ->
               alter_each ReportQueue_close (_client_queues (self st))
                 (alter ReportQueue_close (_master_queue (self st)) (heap st))
               !! r = Some q ->
               ReportQueue_call delta q = q) as Hclosed.
    { intros r q Hr. rewrite lookup_broadcast by done.
      destruct (heap st !! r); cbn; [|done]. by intros [= <-]. }
    rewrite alter_fixed by (intros q; apply Hclosed; by left).
    rewrite alter_each_fixed by (intros r q Hr; apply Hclosed; by right).
    reflexivity.
  - destruct (exec_obj FinishedLocalConnection st _ Hwf (or_introl eq_refl))
      as (Ho & Hm & _).
    change (exec FinishedLocalConnection st) with st0 in Ho, Hm.
    destruct (run_obj ops st0 _ Hwf0 (or_introl eq_refl)) as (_ & Hc & Hm1 & _).
    fold st1 in Hc, Hm1. rewrite <- Hm1 in Hc.
    assert (closed_of st1 (_master_queue (self st1)) = true) as Hcl.
    { rewrite Hc. unfold closed_of. rewrite Hm1, Hm, Ho. done. }
    destruct (exec_obj (Enqueue delta) st1 _ Hwf1 (or_introl eq_refl))
      as (Ho2 & Hm2 & _).
    cbn [exec effect_on_queue] in Ho2, Hm2.
    assert (obj (snd (enqueue delta st1)) (_master_queue (self st1))
            = obj st1 (_master_queue (self st1))) as Hsame.
    { rewrite Ho2. unfold ReportQueue_call.
      unfold closed_of in Hcl. by rewrite Hcl. }
    assert (master_deltas (snd (enqueue delta st1)) = master_deltas st1) as Hmd.
    { unfold master_deltas, deltas_of. by rewrite Hm2, Hsame. }
    repeat split; [by rewrite enqueue_eq | done | done |].
    rewrite !serialize_report_to_files_eq. cbn [fst]. rewrite Hmd.
    by rewrite enqueue_eq.
Qed.

(** ** The archive *)

(** C5, archive shape: take a session built with id [I] and name [N], and
    let [d0 .. dn-1] be the deltas of its master log: the deltas enqueued
    since its creation, all of them as long as the producer is attached.
    [serialize_report_to_files] returns [n+1] entries: first
    [reports/I/manifest.json] with the [json.dumps] of the dictionary of
    [name = N], [local_id] and [nDeltas = n], then at position [k+1] the
    entry [reports/I/k.delta] with the serialised bytes of [dk]. *)
Theorem archive_shape (new_report_msg : NewReport) (name0 : string)
    (h : list ReportQueue) (tr : list Effect) (ops : list Op) :
  let st := run ops (snd (__init__ new_report_msg name0 h tr)) in
  let deltas := master_deltas st in
  let I := msg_id new_report_msg in
  deltas = enqueued_before_finish ops
  /\ (no_finish ops = true -> deltas = enqueue_args ops)
  /\ exists entries : list (string * content),
       fst (serialize_report_to_files st) = Return entries
       /\ length entries = S (length deltas)
       /\ entries !! 0
          = Some ("reports/" +:+ I +:+ "/manifest.json",
                  Text (json_dumps [("name", JStr name0);
                                    ("local_id", JStr local_id_str);
                                    ("nDeltas", JInt (length deltas))]))
       /\ forall k : nat,
            entries !! S k
            = (fun delta =>
                 ("reports/" +:+ I +:+ "/" +:+ pretty k +:+ ".delta",
                  Bytes (SerializeToString delta))) <$> deltas !! k.
Proof.
  intros st deltas I.
  destruct (master_log_history new_report_msg name0 h tr ops) as [Hmd _].
  fold st in Hmd. fold deltas in Hmd.
  split; [done|]. split.
  { intros Hfin. rewrite Hmd. by apply no_finish_enqueue_args. }
  rewrite serialize_report_to_files_eq. cbn [fst]. eexists. split; [done|].
  fold deltas.
  destruct (run_identity ops (snd (__init__ new_report_msg name0 h tr)))
    as (Hid & Hname & _).
  fold st in Hid, Hname.
  destruct (init_shape new_report_msg name0 h tr) as (o & tr' & Hinit).
  rewrite Hinit in Hid, Hname. cbn in Hid, Hname.
  unfold entries_of. rewrite Hid, Hname. cbn [length].
  rewrite length_imap. repeat split.
  intros k. cbn. apply list_lookup_imap.
Qed.

(** C7, export leaves the session as it is: [serialize_report_to_files]
    returns, and after it the session object (so the list of client queues,
    [_in_grace_period] and [_has_local]) and the trace are the same, every
    object that was in the heap (the master queue with its deltas and its
    closed flag, each client queue) is the same: the heap has one more
    object, the clone, and only it was drained. A second call in a row
    returns the same entries. *)
Theorem export_frame (st : State) :
  wf st ->
  exists (entries : list (string * content)) (st' : State),
    serialize_report_to_files st = (Return entries, st')
    /\ self st' = self st
    /\ trace st' = trace st
    /\ (forall r : qref, r < length (heap st) -> heap st' !! r = heap st !! r)
    /\ obj st' (_master_queue (self st)) = obj st (_master_queue (self st))
    /\ Forall (fun q => obj st' q = obj st q) (_client_queues (self st))
    /\ length (heap st') = S (length (heap st))
    /\ deltas_of st' (length (heap st)) = []
    /\ fst (serialize_report_to_files st') = Return entries.
Proof.
  intros Hwf. rewrite serialize_report_to_files_eq. do 2 eexists.
  split; [reflexivity|]. cbn [self heap trace].
  pose proof Hwf as (Hm & Hc & _).
  repeat split.
  - intros r Hr. by apply lookup_app_l.
  - by apply obj_app_l.
  - eapply Forall_impl; [exact Hc|]. intros q Hq. by apply obj_app_l.
  - rewrite length_app. cbn. lia.
  - unfold deltas_of, obj. cbn.
    rewrite lookup_app_r by lia. by rewrite Nat.sub_diag.
  - rewrite serialize_report_to_files_eq. cbn [fst self].
    unfold master_deltas, deltas_of. cbn [self]. by rewrite obj_app_l.
Qed.

(** ** The watcher *)

(** C6, the fallback of the watcher: [__init__] returns without raising
    whatever the options are and whether or not [Observer.start] fails. With
    watching on in recursive mode, when the recursive start fails and the
    flat one succeeds, the session has a running flat observer, after two
    starts. With watching on in flat mode, when the start fails, there is no
    second start and the session has no observer. When both the recursive
    and the flat start fail, the session has no observer. *)
Theorem watcher_fallback (new_report_msg : NewReport) (name0 : string)
    (h : list ReportQueue) (tr : list Effect) :
  let path := dirname (msg_source_file_path new_report_msg) in
  let r := __init__ new_report_msg name0 h tr in
  let flat :=
    {| obs_path := path; obs_recursive := false;
       obs_patterns := proxy_watchPatterns;
       obs_ignore_patterns := proxy_ignorePatterns;
       obs_stopped := false |} in
  fst r = Return tt
  /\ (proxy_watchFileSystem = true ->
      proxy_watchUpdatesRecursively = true ->
      observer_starts path true = false ->
      observer_starts path false = true ->
      _fs_observer (self (snd r)) = Some flat
      /\ trace (snd r)
         = tr ++ [Observer_start path true; Observer_start path false])
  /\ (proxy_watchFileSystem = true ->
      proxy_watchUpdatesRecursively = false ->
      observer_starts path false = false ->
      _fs_observer (self (snd r)) = None
      /\ trace (snd r) = tr ++ [Observer_start path false])
  /\ (proxy_watchFileSystem = true ->
      proxy_watchUpdatesRecursively = true ->
      observer_starts path true = false ->
      observer_starts path false = false ->
      _fs_observer (self (snd r)) = None
      /\ trace (snd r)
         = tr ++ [Observer_start path true; Observer_start path false]).
Proof.
  intros path r flat. split.
  { subst r. by destruct (init_shape new_report_msg name0 h tr)
      as (o & tr' & ->). }
  subst r flat path.
  unfold __init__, _initialize_fs_observer_with_fallback,
    _initialize_fs_observer, Observer_start_call.
  unfold_queue. unfold_m. cbn.
  assert (bool_decide (OSError = OSError) = true) as Hex by done.
  split; [|split]; intros Hw Hr;
    rewrite Hw, Hr; cbn; intros Hs; rewrite ?Hs; cbn; rewrite ?Hex; cbn;
    try (intros Hs'; rewrite Hs'; cbn; rewrite ?Hex; cbn); try done;
    by rewrite <- app_assoc.
Qed.

(** C10, every event that passes the filter starts the script again: the
    handler [on_any_event] does not look at the event, whatever its type it
    calls [subprocess.Popen] with the stored command line and the stored
    working directory. When the process starts, the handler waits for it and
    returns; when [Popen] raises, the exception leaves the handler, which
    catches nothing, and no wait takes place. An event that passes the
    filter of a running observer is handled in this way, and as long as
    every process starts, the events are handled one at a time, each process
    being waited for before the next one is started. *)
Theorem fs_event_reruns (st : State) (o : Observer)
    (events : list FileSystemEvent) :
  let start := Popen (command_line (self st)) (cwd (self st)) in
  let handled :=
    if popen_starts (command_line (self st)) (cwd (self st))
    then (Return tt,
          {| self := self st; heap := heap st;
             trace := trace st ++ [start; Popen_wait] |})
    else (Raise OSError,
          {| self := self st; heap := heap st;
             trace := trace st ++ [start] |}) in
  _fs_observer (self st) = Some o ->
  obs_stopped o = false ->
  forallb (fun e => matches_patterns e (obs_patterns o) (obs_ignore_patterns o))
          events = true ->
  (forall event : FileSystemEvent, on_any_event event st = handled)
  /\ (forall event : FileSystemEvent,
         matches_patterns event (obs_patterns o) (obs_ignore_patterns o) = true ->
         dispatch event st = handled)
  /\ (popen_starts (command_line (self st)) (cwd (self st)) = true ->
      observer_run events st
      = (Return tt,
         {| self := self st; heap := heap st;
            trace := trace st
                     ++ concat (map (fun _ => [start; Popen_wait]) events) |})).
Proof.
  intros start handled Ho Hrun Hall. subst start handled.
  assert (forall (st : State) (event : FileSystemEvent),
             on_any_event event st
             = if popen_starts (command_line (self st)) (cwd (self st))
               then (Return tt,
                     {| self := self st; heap := heap st;
                        trace := trace st
                                 ++ [Popen (command_line (self st)) (cwd (self st));
                                     Popen_wait] |})
               else (Raise OSError,
                     {| self := self st; heap := heap st;
                        trace := trace st
                                 ++ [Popen (command_line (self st))
                                       (cwd (self st))] |})) as Hany.
  { intros st' event. unfold on_any_event, _on_fs_event. unfold_m. cbn.
    destruct (popen_starts _ _); cbn; [|done].
    by rewrite <- app_assoc. }
  assert (forall (st : State) (event : FileSystemEvent),
             _fs_observer (self st) = Some o ->
             matches_patterns event (obs_patterns o) (obs_ignore_patterns o)
             = true ->
             dispatch event st = on_any_event event st) as Hdisp.
  { intros st' event Ho' Hev. unfold dispatch.
    unfold mbind, M_bind, bind, get_self.
    by rewrite Ho', Hrun, Hev. }
  split; [apply Hany|].
  split; [intros event Hev; rewrite Hdisp by done; apply Hany|].
  unfold observer_run. revert st Ho Hall.
  induction events as [|event events IH]; intros st Ho Hall Hstarts.
  - cbn. rewrite app_nil_r. by destruct st.
  - cbn in Hall. apply andb_true_iff in Hall as [Hev Hall].
    cbn [for_each]. unfold mbind, M_bind, bind.
    rewrite (Hdisp st event Ho Hev), Hany, Hstarts.
    rewrite IH by done. cbn. by rewrite <- app_assoc.
Qed.

End Properties.

(** * Further properties of the session *)

Section MoreProperties.
Context `{Collaborators}.

Ltac unfold_m :=
  unfold mbind, mret, M_bind, M_ret, bind, ret, raise, try_except,
    get_self, setattr, emit, alloc, deref, update in *.

(** ** The flags, read off the history *)

Lemma exec_flags (op : Op) (st : State) :
  _has_local (self (exec op st)) = _has_local (self st) && negb (is_finish op)
  /\ _in_grace_period (self (exec op st))
     = _in_grace_period (self st) && negb (ends_grace op).
Proof.
  destruct op; cbn [exec is_finish ends_grace negb];
    rewrite ?andb_true_r, ?andb_false_r.
  - by rewrite enqueue_eq.
  - by rewrite add_client_queue_eq.
  - rewrite remove_client_queue_eq.
    by destruct (list_remove queue (_client_queues (self st))).
  - by rewrite finished_local_connection_eq.
  - done.
  - done.
  - by rewrite serialize_report_to_files_eq.
  - destruct (close_frame st) as (_ & _ & Hs).
    apply same_but_observer in Hs as (-> & -> & _). done.
  - destruct (dispatch_frame event st) as (_ & _ & ->). done.
Qed.

Lemma run_flags (ops : list Op) (st : State) :
  _has_local (self (run ops st)) = _has_local (self st) && no_finish ops
  /\ _in_grace_period (self (run ops st))
     = _in_grace_period (self st) && still_in_grace ops.
Proof.
  revert st. induction ops as [|op ops IH]; intros st.
  - cbn. by rewrite !andb_true_r.
  - change (run (op :: ops) st) with (run ops (exec op st)).
    destruct (IH (exec op st)) as [-> ->].
    destruct (exec_flags op st) as [-> ->].
    cbn. by rewrite !andb_assoc.
Qed.

(** X1, the flags and the teardown answer as functions of the history: on
    a session built by [__init__], [_has_local] is [True] exactly as long as
    [finished_local_connection] was not called, and [_in_grace_period] is
    [True] exactly as long as neither [end_grace_period] nor
    [add_client_queue] was called. So [can_be_deregistered] answers [True]
    exactly when the producer has finished, the grace period was ended and
    no client queue is attached; it answers [False] on a new session. *)
Theorem flags_by_history (new_report_msg : NewReport) (name0 : string)
    (h : list ReportQueue) (tr : list Effect) (ops : list Op) :
  let st := run ops (snd (__init__ new_report_msg name0 h tr)) in
  _has_local (self st) = no_finish ops
  /\ _in_grace_period (self st) = still_in_grace ops
  /\ fst (can_be_deregistered st)
     = Return (negb (no_finish ops) && negb (still_in_grace ops)
               && bool_decide (_client_queues (self st) = []))
  /\ fst (can_be_deregistered (snd (__init__ new_report_msg name0 h tr)))
     = Return false.
Proof.
  intros st.
  destruct (run_flags ops (snd (__init__ new_report_msg name0 h tr)))
    as [Hl Hg].
  fold st in Hl, Hg.
  destruct (init_shape new_report_msg name0 h tr) as (o & tr' & Hinit).
  rewrite Hinit in Hl, Hg |- *. cbn in Hl, Hg.
  split; [done|]. split; [done|]. split; [|done].
  unfold can_be_deregistered. unfold_m. cbn [fst]. rewrite Hl, Hg.
  destruct (no_finish ops), (still_in_grace ops),
    (_client_queues (self st)); done.
Qed.

(** ** Attaching and detaching, composed *)

Lemma list_remove_snoc (q : qref) (l : list qref) :
  q ∉ l -> list_remove q (l ++ [q]) = Some l.
Proof.
  induction l as [|x l IH]; intros Hq; cbn.
  - by rewrite bool_decide_eq_true_2.
  - apply not_elem_of_cons in Hq as [Hne Hq].
    rewrite bool_decide_eq_false_2 by congruence. by rewrite IH.
Qed.

Lemma filter_ne_notin (q : qref) (l : list qref) :
  q ∉ l -> filter (fun x => x <> q) l = l.
Proof.
  induction l as [|x l IH]; intros Hq; [done|].
  apply not_elem_of_cons in Hq as [Hne Hq].
  rewrite filter_cons_True by congruence. by rewrite IH.
Qed.

Lemma list_remove_filter (q : qref) (l : list qref) :
  NoDup l -> q ∈ l -> list_remove q l = Some (filter (fun x => x <> q) l).
Proof.
  induction l as [|x l IH]; intros Hnd Hq; [by apply elem_of_nil in Hq|].
  apply NoDup_cons in Hnd as [Hx Hnd]. cbn [list_remove].
  case_bool_decide as E.
  - subst x. rewrite filter_cons_False by (intros Hne; by apply Hne).
    f_equal. symmetry. by apply filter_ne_notin.
  - apply elem_of_cons in Hq as [->|Hq]; [done|].
    rewrite IH by done. by rewrite filter_cons_True by done.
Qed.

(** X2, attach then detach: removing the queue [add_client_queue] has just
    returned does not raise and gives back the list of client queues there
    was before the attach, in the same order. What the attach did besides
    stays: the grace period is over and the heap keeps the clone. The master
    log is the same. *)
Theorem attach_detach_round_trip (st : State) :
  wf st ->
  let q := length (heap st) in
  let st1 := snd (add_client_queue st) in
  exists st2 : State,
    remove_client_queue q st1 = (Return tt, st2)
    /\ _client_queues (self st2) = _client_queues (self st)
    /\ heap st2 = heap st1
    /\ _in_grace_period (self st2) = false
    /\ _has_local (self st2) = _has_local (self st)
    /\ obj st2 (_master_queue (self st2)) = obj st (_master_queue (self st)).
Proof.
  intros (Hm & Hc & _ & _) q st1. subst q st1.
  rewrite add_client_queue_eq. cbn [snd].
  rewrite remove_client_queue_eq. cbn [self _client_queues set__client_queues].
  rewrite list_remove_snoc.
  - eexists. split; [reflexivity|]. cbn. repeat split.
    unfold obj. cbn. by rewrite lookup_app_l.
  - intros Hin. rewrite Forall_forall in Hc. apply Hc in Hin. lia.
Qed.

(** X3, detaching an attached queue: when the queue is one of the client
    queues, [remove_client_queue] returns without raising; the queue is no
    longer in the list, the other queues stay, in the same order, and the
    list is one shorter. No queue object is touched: the removed queue is
    neither closed nor emptied. *)
Theorem remove_client_queue_attached (st : State) (queue : qref) :
  wf st ->
  queue ∈ _client_queues (self st) ->
  exists st' : State,
    remove_client_queue queue st = (Return tt, st')
    /\ _client_queues (self st')
       = filter (fun x => x <> queue) (_client_queues (self st))
    /\ (queue ∉ _client_queues (self st'))
    /\ S (length (_client_queues (self st')))
       = length (_client_queues (self st))
    /\ heap st' = heap st
    /\ trace st' = trace st
    /\ set__client_queues [] (self st') = set__client_queues [] (self st).
Proof.
  intros (_ & _ & _ & Hnd) Hq. rewrite remove_client_queue_eq.
  pose proof (list_remove_filter queue _ Hnd Hq) as Hrm. rewrite Hrm.
  eexists. split; [reflexivity|]. cbn. repeat split.
  - rewrite list_elem_of_filter. intros [Hne _]. by apply Hne.
  - clear Hrm. induction (_client_queues (self st)) as [|x l IH];
      [by apply elem_of_nil in Hq|].
    apply NoDup_cons in Hnd as [Hx Hnd].
    apply elem_of_cons in Hq as [->|Hq].
    + rewrite filter_cons_False by (intros Hne; by apply Hne).
      by rewrite filter_ne_notin.
    + rewrite filter_cons_True by (intros ->; done).
      cbn. f_equal. by apply IH.
Qed.

(** ** A detached queue *)

Lemma exec_detached (op : Op) (st : State) (q : qref) :
  wf st ->
  q < length (heap st) ->
  q <> _master_queue (self st) ->
  q ∉ _client_queues (self st) ->
  obj (exec op st) q = obj st q
  /\ q < length (heap (exec op st))
  /\ q <> _master_queue (self (exec op st))
  /\ (q ∉ _client_queues (self (exec op st))).
Proof.
  intros Hwf Hlt Hm Hc. destruct op; cbn [exec].
  - rewrite enqueue_eq. unfold obj. cbn.
    rewrite lookup_alter_each_notin by done.
    rewrite list_lookup_alter_ne by done.
    rewrite length_alter_each, length_alter. done.
  - rewrite add_client_queue_eq. cbn [snd]. rewrite obj_app_l by done. cbn.
    rewrite length_app. cbn. repeat split; [lia|done|].
    rewrite elem_of_app, list_elem_of_singleton. intros [?|?]; [done|lia].
  - rewrite remove_client_queue_eq.
    destruct (list_remove queue (_client_queues (self st))) as [l|] eqn:E;
      [|done].
    cbn. repeat split; try done. intros Hin. apply Hc.
    eapply elem_of_sublist; [exact Hin|]. by eapply list_remove_sublist.
  - rewrite finished_local_connection_eq. unfold obj. cbn.
    rewrite lookup_alter_each_notin by done.
    rewrite list_lookup_alter_ne by done.
    rewrite length_alter_each, length_alter. done.
  - done.
  - done.
  - rewrite serialize_report_to_files_eq. cbn [snd]. rewrite obj_app_l by done.
    cbn. rewrite length_app. cbn. repeat split; [lia|done|done].
  - destruct (close_frame st) as (_ & Hh & Hs).
    apply same_but_observer in Hs as (_ & _ & Hm' & Hc' & _).
    unfold obj. rewrite Hh, Hm', Hc'. done.
  - destruct (dispatch_frame event st) as (_ & Hh & Hs).
    unfold obj. rewrite Hh, Hs. done.
Qed.

(** X4, a detached queue is left alone: a queue object that is neither the
    master queue nor one of the client queues, such as a queue that was
    removed, is changed by no later call: [enqueue] does not append to it
    and [finished_local_connection] does not close it; it never gets back
    into the list of client queues. *)
Theorem detached_queue_untouched (st : State) (q : qref) (ops : list Op) :
  wf st ->
  q < length (heap st) ->
  q <> _master_queue (self st) ->
  q ∉ _client_queues (self st) ->
  obj (run ops st) q = obj st q
  /\ (q ∉ _client_queues (self (run ops st))).
Proof.
  revert st. induction ops as [|op ops IH]; intros st Hwf Hlt Hm Hc; [done|].
  change (run (op :: ops) st) with (run ops (exec op st)).
  destruct (exec_detached op st q Hwf Hlt Hm Hc) as (Ho & Hlt' & Hm' & Hc').
  destruct (IH (exec op st) (exec_wf op st Hwf) Hlt' Hm' Hc') as [Ho' Hc''].
  split; [congruence|done].
Qed.

(** ** Fan-out *)

Lemma exec_in_step (op : Op) (st : State) :
  in_step st -> is_finish op = false -> in_step (exec op st).
Proof.
  intros (Hwf & Hopen & Hall) Hfin.
  split; [by apply exec_wf|].
  destruct (exec_obj op st _ Hwf (or_introl eq_refl)) as (Hom & Hm & _).
  rewrite Hm, Hom. split.
  { destruct op; cbn in *; try done.
    unfold ReportQueue_call. by rewrite Hopen. }
  apply Forall_forall. intros q Hq.
  rewrite Forall_forall in Hall.
  destruct op; cbn [exec effect_on_queue] in *; try done.
  - rewrite enqueue_eq in Hq |- *. cbn in Hq.
    destruct (exec_obj (Enqueue delta) st q Hwf (or_intror (conj Hq eq_refl)))
      as (Ho & _). cbn [exec effect_on_queue] in Ho.
    rewrite enqueue_eq in Ho. rewrite Ho. by rewrite Hall.
  - rewrite add_client_queue_eq in Hq |- *. cbn in Hq.
    apply elem_of_app in Hq as [Hq| ->%list_elem_of_singleton].
    + destruct (exec_obj AddClientQueue st q Hwf (or_intror (conj Hq eq_refl)))
        as (Ho & _). cbn [exec effect_on_queue] in Ho.
      rewrite add_client_queue_eq in Ho. rewrite Ho. by apply Hall.
    + unfold obj at 1. cbn. rewrite lookup_app_r by lia.
      rewrite Nat.sub_diag. cbn. unfold ReportQueue_clone.
      fold (obj st (_master_queue (self st))).
      destruct (obj st (_master_queue (self st))) as [ds c]. cbn in *.
      by subst c.
  - rewrite remove_client_queue_eq in Hq |- *.
    destruct (list_remove queue (_client_queues (self st))) as [l|] eqn:E;
      cbn in Hq |- *; [|by apply Hall].
    unfold obj. cbn. apply Hall.
    eapply elem_of_sublist; [exact Hq|]. by eapply list_remove_sublist.
  - by apply Hall.
  - by apply Hall.
  - rewrite serialize_report_to_files_eq in Hq |- *. cbn in Hq.
    destruct (exec_obj SerializeReportToFiles st q Hwf
                (or_intror (conj Hq eq_refl))) as (Ho & _).
    cbn [exec effect_on_queue] in Ho.
    rewrite serialize_report_to_files_eq in Ho. rewrite Ho. by apply Hall.
  - destruct (close_frame st) as (_ & Hh & Hs).
    apply same_but_observer in Hs as (_ & _ & _ & Hc' & _).
    rewrite Hc' in Hq. unfold obj. rewrite Hh. by apply Hall.
  - destruct (dispatch_frame event st) as (_ & Hh & Hs).
    rewrite Hs in Hq. unfold obj. rewrite Hh. by apply Hall.
Qed.

Lemma run_in_step (ops : list Op) (st : State) :
  in_step st -> no_finish ops = true -> in_step (run ops st).
Proof.
  revert st. induction ops as [|op ops IH]; intros st Hst Hfin; [done|].
  cbn in Hfin. apply andb_true_iff in Hfin as [Hop Hfin].
  apply negb_true_iff in Hop.
  change (run (op :: ops) st) with (run ops (exec op st)).
  apply IH; [by apply exec_in_step | done].
Qed.

(** X5, fan-out keeps all clients in step: on a session built by [__init__]
    whose producer has not finished, whatever the calls were, every attached
    client queue is open and holds exactly the deltas of the master log,
    which are the deltas passed to [enqueue], in call order. No client is
    ahead of or behind another one. *)
Theorem fan_out_in_step (new_report_msg : NewReport) (name0 : string)
    (h : list ReportQueue) (tr : list Effect) (ops : list Op) :
  no_finish ops = true ->
  let st := run ops (snd (__init__ new_report_msg name0 h tr)) in
  master_deltas st = enqueue_args ops
  /\ Forall (fun q => deltas_of st q = enqueue_args ops
                      /\ closed_of st q = false)
       (_client_queues (self st)).
Proof.
  intros Hfin st.
  assert (in_step (snd (__init__ new_report_msg name0 h tr))) as Hinit.
  { split; [apply init_wf|].
    destruct (init_shape new_report_msg name0 h tr) as (o & tr' & ->).
    unfold obj. cbn. rewrite lookup_app_r by lia. rewrite Nat.sub_diag.
    split; [done|constructor]. }
  destruct (run_in_step ops _ Hinit Hfin) as (_ & Hopen & Hall).
  fold st in Hopen, Hall.
  destruct (master_log_history new_report_msg name0 h tr ops) as [Hmd _].
  fold st in Hmd. rewrite no_finish_enqueue_args in Hmd by done.
  split; [done|].
  eapply Forall_impl; [exact Hall|]. intros q Hq.
  unfold deltas_of, closed_of. rewrite Hq. done.
Qed.

(** ** The end of the producer *)

Lemma ReportQueue_close_closed (q : ReportQueue) :
  rq_closed q = true -> ReportQueue_close q = q.
Proof. destruct q as [ds c]. cbn. by intros ->. Qed.

(** X6, [finished_local_connection] ends every stream and keeps every
    delta: it returns without raising, the master queue and every attached
    client queue are closed afterwards and hold the deltas they held, the
    list of client queues and [_in_grace_period] are as before, and
    [_has_local] is [False]. A second call in a row changes nothing. *)
Theorem finished_local_connection_closes_all (st : State) :
  wf st ->
  let st' := snd (finished_local_connection st) in
  fst (finished_local_connection st) = Return tt
  /\ _has_local (self st') = false
  /\ _in_grace_period (self st') = _in_grace_period (self st)
  /\ _client_queues (self st') = _client_queues (self st)
  /\ closed_of st' (_master_queue (self st')) = true
  /\ master_deltas st' = master_deltas st
  /\ Forall (fun q => closed_of st' q = true /\ deltas_of st' q = deltas_of st q)
       (_client_queues (self st'))
  /\ finished_local_connection st' = (Return tt, st').
Proof.
  intros Hwf st'.
  assert (forall r,
             r = _master_queue (self st) \/ r ∈ _client_queues (self st) ->
             obj st' r = ReportQueue_close (obj st r)) as Hobj.
  { intros r Hr. subst st'. rewrite finished_local_connection_eq.
    unfold obj. cbn. rewrite lookup_broadcast by done.
    pose proof (held_lt st r Hwf Hr) as Hlt.
    destruct (lookup_lt_is_Some_2 _ _ Hlt) as [q ->]. done. }
  assert (self st' = set__has_local false (self st)) as Hself.
  { subst st'. by rewrite finished_local_connection_eq. }
  split; [by rewrite finished_local_connection_eq|].
  rewrite Hself. cbn [_has_local _in_grace_period _client_queues
                      _master_queue set__has_local].
  split; [done|]. split; [done|]. split; [done|].
  unfold master_deltas, closed_of, deltas_of. rewrite Hself. cbn.
  rewrite Hobj by (by left).
  split; [done|]. split; [done|]. split.
  { apply Forall_forall. intros q Hq. rewrite Hobj by (by right). done. }
  rewrite (finished_local_connection_eq st'). f_equal.
  assert (forall r q,
             r = _master_queue (self st') \/ r ∈ _client_queues (self st') ->
             heap st' !! r = Some q -> ReportQueue_close q = q) as Hfix.
  { intros r q Hr Hlook. apply ReportQueue_close_closed.
    assert (obj st' r = q) as <- by (unfold obj; by rewrite Hlook).
    rewrite Hobj; [done|]. rewrite Hself in Hr. exact Hr. }
  rewrite alter_fixed by (intros q; apply Hfix; by left).
  rewrite alter_each_fixed by (intros r q Hr; apply Hfix; by right).
  assert (set__has_local false (self st') = self st') as ->.
  { rewrite Hself. by destruct (self st). }
  clearbody st'. by destruct st'.
Qed.

(** ** The archive over time *)

Lemma entries_of_same (c c' : ProxyConnection) (deltas : list Delta) :
  id c' = id c -> name c' = name c -> entries_of c' deltas = entries_of c deltas.
Proof. intros Hid Hname. unfold entries_of. by rewrite Hid, Hname. Qed.

(** X7, only [enqueue] changes the archive: after any call other than
    [enqueue], be it [finished_local_connection], an attach, a detach,
    [close] or an export, [serialize_report_to_files] returns the entries it
    returned before the call. *)
Theorem archive_changes_only_by_enqueue (st : State) (op : Op) :
  wf st ->
  is_enqueue op = false ->
  fst (serialize_report_to_files (exec op st))
  = fst (serialize_report_to_files st).
Proof.
  intros Hwf Hop. rewrite !serialize_report_to_files_eq. cbn [fst]. f_equal.
  destruct (exec_obj op st _ Hwf (or_introl eq_refl)) as (Ho & Hm & _).
  destruct (exec_identity op st) as (Hid & Hname & _).
  unfold master_deltas, deltas_of. rewrite Hm, Ho.
  rewrite (entries_of_same _ _ _ Hid Hname). f_equal.
  by destruct op.
Qed.

(** X8, the archive only grows: between two exports, whatever the calls in
    between, the master log keeps its deltas and may get more at the end. So
    the delta entries of the first export, paths and bytes, are the first
    delta entries of the second one: a later export never changes or drops a
    delta file, only the manifest is rewritten. *)
Theorem archive_append_only (st : State) (ops : list Op) :
  wf st ->
  exists (entries entries' : list (string * content)) (more : list Delta),
    fst (serialize_report_to_files st) = Return entries
    /\ fst (serialize_report_to_files (run ops st)) = Return entries'
    /\ master_deltas (run ops st) = master_deltas st ++ more
    /\ tail entries `prefix_of` tail entries'
    /\ length entries' = length entries + length more.
Proof.
  intros Hwf. rewrite !serialize_report_to_files_eq. cbn [fst].
  destruct (run_obj ops st _ Hwf (or_introl eq_refl)) as (Hd & _ & Hm & _).
  destruct (run_identity ops st) as (Hid & Hname & _).
  exists (entries_of (self st) (master_deltas st)),
    (entries_of (self (run ops st)) (master_deltas (run ops st))),
    (if closed_of st (_master_queue (self st)) then []
     else enqueued_before_finish ops).
  split; [done|]. split; [done|].
  assert (master_deltas (run ops st)
          = master_deltas st
            ++ (if closed_of st (_master_queue (self st)) then []
                else enqueued_before_finish ops)) as Hmd.
  { unfold master_deltas. by rewrite Hm, Hd. }
  rewrite Hmd. split; [done|].
  rewrite (entries_of_same _ _ _ Hid Hname). unfold entries_of. cbn [tail].
  rewrite imap_app. split; [by apply prefix_app_r|].
  cbn [length]. rewrite length_app, !length_imap. lia.
Qed.

(** ** The paths of the archive *)

Lemma string_length_app (s t : string) :
  String.length (s +:+ t) = String.length s + String.length t.
Proof. induction s as [|a s IH]; cbn; [done|]. by rewrite <- IH. Qed.

Lemma string_app_inj_r (s1 s2 t : string) : s1 +:+ t = s2 +:+ t -> s1 = s2.
Proof.
  revert s2. induction s1 as [|a s1 IH]; intros [|b s2] Heq.
  - done.
  - apply (f_equal String.length) in Heq.
    rewrite !string_length_app in Heq. cbn in Heq. lia.
  - apply (f_equal String.length) in Heq.
    rewrite !string_length_app in Heq. cbn in Heq. lia.
  - change (String a (s1 +:+ t) = String b (s2 +:+ t)) in Heq.
    injection Heq as -> Heq. f_equal. by apply IH.
Qed.

#[local] Instance delta_path_inj (I : string) : Inj eq eq (delta_path I).
Proof.
  intros k k' Heq. unfold delta_path in Heq.
  do 3 apply String.app_inj in Heq.
  apply string_app_inj_r in Heq. by apply pretty_nat_inj in Heq.
Qed.

Lemma not_manifest (s : string) : s +:+ ".delta" <> "manifest.json".
Proof.
  intros Heq. apply (f_equal list_ascii_of_string) in Heq.
  do 14 (destruct s as [|? s]; [vm_compute in Heq; discriminate Heq|];
         change (String ?a s +:+ ".delta") with (String a (s +:+ ".delta"))
           in Heq;
         cbn [list_ascii_of_string] in Heq;
         first [injection Heq as _ Heq | discriminate Heq]).
Qed.

Lemma entries_of_paths (c : ProxyConnection) (deltas : list Delta) :
  (entries_of c deltas).*1
  = ("reports/" +:+ id c +:+ "/manifest.json")
    :: (delta_path (id c) <$> seq 0 (length deltas)).
Proof.
  unfold entries_of. cbn. f_equal. apply list_eq. intros i.
  rewrite !list_lookup_fmap, list_lookup_imap.
  destruct (deltas !! i) as [d|] eqn:E; cbn.
  - rewrite lookup_seq_lt by (by eapply lookup_lt_Some). done.
  - rewrite lookup_seq_ge by (by apply lookup_ge_None). done.
Qed.

(** X9, no entry of the archive overwrites another: in every state the
    entries [serialize_report_to_files] returns have pairwise distinct
    paths: the delta at position [k] has the path [reports/I/k.delta], which
    is different for different positions, and none of them is the path of
    the manifest. *)
Theorem archive_paths_distinct (st : State) :
  exists entries : list (string * content),
    fst (serialize_report_to_files st) = Return entries
    /\ NoDup entries.*1
    /\ entries.*1
       = ("reports/" +:+ id (self st) +:+ "/manifest.json")
         :: (delta_path (id (self st)) <$> seq 0 (length (master_deltas st))).
Proof.
  rewrite serialize_report_to_files_eq. cbn [fst]. eexists.
  split; [reflexivity|]. rewrite entries_of_paths. split; [|done].
  apply NoDup_cons. split.
  - intros (k & Heq & _)%list_elem_of_fmap. unfold delta_path in Heq.
    do 2 apply String.app_inj in Heq.
    change ("/manifest.json") with ("/" +:+ "manifest.json") in Heq.
    apply String.app_inj in Heq. symmetry in Heq. by apply not_manifest in Heq.
  - apply NoDup_fmap_2; [apply _|apply NoDup_seq].
Qed.

(** ** The observer of a session *)

(** X10, watching switched off: when [proxy.watchFileSystem] is false,
    [__init__] makes no call to [Observer.start], whatever the other options
    say, and the session has no observer; [close()] on it then makes no call
    either and leaves the session as it is. *)
Theorem watcher_off (new_report_msg : NewReport) (name0 : string)
    (h : list ReportQueue) (tr : list Effect) :
  proxy_watchFileSystem = false ->
  let st := snd (__init__ new_report_msg name0 h tr) in
  fst (__init__ new_report_msg name0 h tr) = Return tt
  /\ trace st = tr
  /\ _fs_observer (self st) = None
  /\ close st = (Return tt, st).
Proof.
  intros Hw st. subst st.
  unfold __init__, _initialize_fs_observer_with_fallback.
  unfold queue_new. unfold_m. cbn. rewrite Hw. cbn. done.
Qed.

(** X11, the observer a session holds is one that started: if after
    [__init__] the session has an observer, then watching is switched on,
    the observer watches the directory of the source file with the
    configured patterns, its own [start] succeeded and was the last call
    made, and it is recursive only if the recursive mode is configured. In
    every case [__init__] makes at most two calls to [Observer.start], and a
    single one when the first start succeeds. *)
Theorem observer_after_init (new_report_msg : NewReport) (name0 : string)
    (h : list ReportQueue) (tr : list Effect) :
  let st := snd (__init__ new_report_msg name0 h tr) in
  let path := dirname (msg_source_file_path new_report_msg) in
  (forall o : Observer,
      _fs_observer (self st) = Some o ->
      proxy_watchFileSystem = true
      /\ o = {| obs_path := path; obs_recursive := obs_recursive o;
                obs_patterns := proxy_watchPatterns;
                obs_ignore_patterns := proxy_ignorePatterns;
                obs_stopped := false |}
      /\ observer_starts path (obs_recursive o) = true
      /\ (obs_recursive o = true -> proxy_watchUpdatesRecursively = true)
      /\ last (trace st) = Some (Observer_start path (obs_recursive o)))
  /\ (exists starts : list Effect,
         trace st = tr ++ starts /\ length starts <= 2)
  /\ (proxy_watchFileSystem = true ->
      observer_starts path proxy_watchUpdatesRecursively = true ->
      obs_recursive <$> _fs_observer (self st)
      = Some proxy_watchUpdatesRecursively
      /\ trace st = tr ++ [Observer_start path proxy_watchUpdatesRecursively]).
Proof.
  intros st path. subst st path.
  unfold __init__, _initialize_fs_observer_with_fallback,
    _initialize_fs_observer, Observer_start_call.
  unfold queue_new. unfold_m. cbn.
  assert (bool_decide (OSError = OSError) = true) as Hex by done.
  destruct proxy_watchFileSystem; cbn.
  2: { split; [done|]. split; [|done]. exists [].
       split; [by rewrite app_nil_r | cbn; lia]. }
  destruct proxy_watchUpdatesRecursively eqn:Hrec; cbn.
  - destruct (observer_starts _ true) eqn:Hs1; cbn.
    + split; [|split].
      * intros o [= <-]. cbn. rewrite last_snoc. done.
      * eexists. split; [reflexivity|]. cbn. lia.
      * done.
    + rewrite Hex. cbn.
      destruct (observer_starts _ false) eqn:Hs2; cbn; rewrite ?Hex; cbn.
      * split; [|split].
        -- intros o [= <-]. cbn. rewrite last_snoc. done.
        -- exists [Observer_start
                     (dirname (msg_source_file_path new_report_msg)) true;
                   Observer_start
                     (dirname (msg_source_file_path new_report_msg)) false].
           split; [by rewrite <- app_assoc|]. cbn. lia.
        -- done.
      * split; [done|split].
        -- exists [Observer_start
                     (dirname (msg_source_file_path new_report_msg)) true;
                   Observer_start
                     (dirname (msg_source_file_path new_report_msg)) false].
           split; [by rewrite <- app_assoc|]. cbn. lia.
        -- done.
  - destruct (observer_starts _ false) eqn:Hs1; cbn; rewrite ?Hex; cbn.
    + split; [|split].
      * intros o [= <-]. cbn. rewrite last_snoc. done.
      * eexists. split; [reflexivity|]. cbn. lia.
      * done.
    + split; [done|split].
      * eexists. split; [reflexivity|]. cbn. lia.
      * done.
Qed.

Lemma close_eq (st : State) :
  close st
  = (Return tt,
     {| self := set__fs_observer (stopped <$> _fs_observer (self st)) (self st);
        heap := heap st;
        trace := trace st ++ close_calls (_fs_observer (self st)) |}).
Proof.
  unfold close. unfold_m. cbn.
  destruct st as [c hp t]. cbn.
  destruct c as [? ? ? ? ? ? ? ? ? [o|]]; cbn.
  - by rewrite <- app_assoc.
  - by rewrite app_nil_r.
Qed.

(** X12, [close()] stops the watcher and nothing else, each time it is
    called: [k] calls in a row never raise; on a session with an observer
    each call asks the observer to stop and joins it for 5 seconds, since
    the reference to the observer is kept; on a session without observer no
    call is made. The queues, the list of client queues, [_has_local] and
    [_in_grace_period] are as before: closing ends no stream. *)
Theorem close_times_effects (st : State) (k : nat) :
  exists st' : State,
    close_times k st = (Return tt, st')
    /\ heap st' = heap st
    /\ set__fs_observer None (self st') = set__fs_observer None (self st)
    /\ trace st'
       = trace st ++ concat (replicate k (close_calls (_fs_observer (self st))))
    /\ _fs_observer (self st')
       = match k with
         | 0 => _fs_observer (self st)
         | S _ => stopped <$> _fs_observer (self st)
         end.
Proof.
  revert st. induction k as [|k IH]; intros st.
  - exists st. cbn. rewrite app_nil_r. repeat split.
  - cbn [close_times]. unfold mbind, M_bind, bind. rewrite close_eq.
    destruct (IH {| self := set__fs_observer
                              (stopped <$> _fs_observer (self st)) (self st);
                    heap := heap st;
                    trace := trace st ++ close_calls (_fs_observer (self st)) |})
      as (st' & -> & Hh & Hs & Ht & Ho).
    exists st'. cbn in Hh, Hs, Ht, Ho. split; [done|]. split; [done|].
    split; [by rewrite Hs|]. split.
    + rewrite Ht. cbn. rewrite <- app_assoc. do 2 f_equal.
      by destruct (_fs_observer (self st)).
    + rewrite Ho. destruct k; [done|].
      by destruct (_fs_observer (self st)).
Qed.

End MoreProperties.




(** * Properties of the chart builder *)

Section ChartProperties.
Context `{ChartCollaborators}.

(** ** Column references *)

Lemma columns_getitem_nat (columns : list atom) (i : nat) :
  columns_getitem columns (Z.of_nat i)
  = from_option Done (Throw IndexError) (columns !! i).
Proof.
  unfold columns_getitem. cbv zeta.
  assert ((Z.of_nat i <? 0)%Z = false) as Hlt by (apply Z.ltb_ge; lia).
  rewrite Hlt. cbv iota. rewrite Hlt, Nat2Z.id. by destruct (columns !! i).
Qed.

Lemma columns_getitem_negative (columns : list atom) (z : Z) :
  (z < 0)%Z ->
  columns_getitem columns z
  = if (z <? - Z.of_nat (length columns))%Z then Throw IndexError
    else from_option Done (Throw IndexError)
           (columns !! Z.to_nat (Z.of_nat (length columns) + z)).
Proof.
  intros Hz. unfold columns_getitem. cbv zeta.
  assert ((z <? 0)%Z = true) as -> by (apply Z.ltb_lt; lia). cbv iota.
  destruct (Z.ltb_spec z (- Z.of_nat (length columns))) as [Hlow|Hlow].
  - assert ((Z.of_nat (length columns) + z <? 0)%Z = true) as ->
      by (apply Z.ltb_lt; lia).
    done.
  - assert ((Z.of_nat (length columns) + z <? 0)%Z = false) as ->
      by (apply Z.ltb_ge; lia).
    by destruct (columns !! _).
Qed.

(** X13, the bounds of a column reference: [_materializeValue] passes any
    other value through, and raises only [IndexError], only on a column
    reference outside the columns. [ColumnAtCurrentIndex] gives the column
    at [currCycle], and raises when there are [currCycle] columns or fewer.
    [ColumnAtIndex(z)] gives the column at [z] for [0 <= z < n], raises for
    [z >= n]; the test does not stop a negative [z], which counts from the
    end: the column at [n + z] for [-n <= z < 0], and [IndexError] below. *)
Theorem materializeValue_bounds (self : Chart) (currCycle : nat) :
  let n := Z.of_nat (length (_columns self)) in
  (forall a : atom, _materializeValue self (Other a) currCycle = Done a)
  /\ _materializeValue self ColumnAtCurrentIndex currCycle
     = from_option Done (Throw IndexError) (_columns self !! currCycle)
  /\ (forall z : Z,
         (0 <= z)%Z ->
         _materializeValue self (ColumnAtIndex z) currCycle
         = from_option Done (Throw IndexError) (_columns self !! Z.to_nat z))
  /\ (forall z : Z,
         (- n <= z < 0)%Z ->
         exists c : atom,
           _columns self !! Z.to_nat (n + z) = Some c
           /\ _materializeValue self (ColumnAtIndex z) currCycle = Done c)
  /\ (forall z : Z,
         (z < - n)%Z ->
         _materializeValue self (ColumnAtIndex z) currCycle = Throw IndexError)
  /\ (forall (v : value) (e : chart_exn),
         _materializeValue self v currCycle = Throw e ->
         e = IndexError
         /\ (v = ColumnAtCurrentIndex /\ length (_columns self) <= currCycle
             \/ exists z : Z, v = ColumnAtIndex z /\ (n <= z \/ z < - n)%Z)).
Proof.
  intros n.
  assert (forall i : nat,
             (if (n <=? Z.of_nat i)%Z then Throw IndexError
              else columns_getitem (_columns self) (Z.of_nat i))
             = from_option Done (Throw IndexError) (_columns self !! i)) as Hnat.
  { intros i. rewrite columns_getitem_nat.
    destruct (Z.leb_spec n (Z.of_nat i)) as [Hge|_]; [|done].
    rewrite lookup_ge_None_2 by lia. done. }
  assert (forall z : Z,
             (z < 0)%Z ->
             _materializeValue self (ColumnAtIndex z) currCycle
             = if (z <? - n)%Z then Throw IndexError
               else from_option Done (Throw IndexError)
                      (_columns self !! Z.to_nat (n + z))) as Hneg.
  { intros z Hz. cbn. fold n.
    assert ((n <=? z)%Z = false) as -> by (apply Z.leb_gt; lia).
    by rewrite columns_getitem_negative. }
  split; [done|]. split; [apply Hnat|]. split.
  { intros z Hz.
    assert (exists i : nat, z = Z.of_nat i) as [i ->]
      by (exists (Z.to_nat z); lia).
    rewrite Nat2Z.id. apply Hnat. }
  split.
  { intros z [Hlow Hz].
    destruct (lookup_lt_is_Some_2 (_columns self) (Z.to_nat (n + z)))
      as [c Hc]; [lia|].
    exists c. split; [done|]. rewrite Hneg by done.
    assert ((z <? - n)%Z = false) as -> by (apply Z.ltb_ge; lia).
    by rewrite Hc. }
  split.
  { intros z Hz. rewrite Hneg by lia.
    by assert ((z <? - n)%Z = true) as -> by (apply Z.ltb_lt; lia). }
  intros v e Hthrow. destruct v as [z| |c|a]; try done.
  - destruct (Z.le_gt_cases 0 z) as [Hz|Hz].
    + assert (exists i : nat, z = Z.of_nat i) as [i ->]
        by (exists (Z.to_nat z); lia).
      cbn in Hthrow. fold n in Hthrow. rewrite Hnat in Hthrow.
      destruct (_columns self !! i) eqn:E; [done|].
      injection Hthrow as <-. split; [done|]. right. exists (Z.of_nat i).
      split; [done|]. left. apply lookup_ge_None in E. lia.
    + rewrite Hneg in Hthrow by done.
      destruct (Z.ltb_spec z (- n)) as [Hlow|Hlow].
      * injection Hthrow as <-. split; [done|]. right. exists z.
        split; [done|]. by right.
      * destruct (lookup_lt_is_Some_2 (_columns self) (Z.to_nat (n + z)))
          as [c Hc]; [lia|].
        by rewrite Hc in Hthrow.
  - cbn in Hthrow. fold n in Hthrow. rewrite Hnat in Hthrow.
    destruct (_columns self !! currCycle) eqn:E; [done|].
    injection Hthrow as <-. split; [done|]. left. split; [done|].
    by apply lookup_ge_None.
Qed.

(** ** Completing a chart *)

Lemma append_repeats_spec (indices : list nat) (self : Chart)
    (comp_name : string) (comp_value : component_value) :
  exists added : list ChartComponent,
    _components (snd (append_repeats self comp_name comp_value indices))
    = _components self ++ added
    /\ set__components [] (snd (append_repeats self comp_name comp_value indices))
       = set__components [] self
    /\ Forall (fun c => exists props, c = ChartComponent_new comp_name props)
         added
    /\ (fst (append_repeats self comp_name comp_value indices) = Done tt ->
        length added = length indices).
Proof.
  revert self. induction indices as [|i indices IH]; intros self.
  - exists []. cbn. rewrite app_nil_r. repeat split. constructor.
  - cbn [append_repeats].
    destruct (materialize_props self comp_value i) as [props|e].
    + destruct (IH (append_component self comp_name props))
        as (added & Hc & Hf & Hall & Hlen).
      exists (ChartComponent_new comp_name props :: added).
      split; [|split; [|split]].
      * rewrite Hc. cbn. by rewrite <- app_assoc.
      * by rewrite Hf.
      * constructor; [by exists props | done].
      * intros Hd. cbn. by rewrite Hlen.
    + exists []. cbn. rewrite app_nil_r. repeat split; [constructor|done].
Qed.

Lemma frame_columns (self self' : Chart) :
  set__components [] self' = set__components [] self ->
  _columns self' = _columns self /\ _type self' = _type self.
Proof. destruct self, self'. cbn. by intros [= -> -> -> -> ->]. Qed.

Lemma numRepeats_frame (self self' : Chart) (r : required_component) :
  set__components [] self' = set__components [] self ->
  numRepeats self' r = numRepeats self r.
Proof.
  intros [Hc _]%frame_columns. destruct r; cbn; [by rewrite Hc | done].
Qed.

Lemma append_missing_spec (existing : gset string)
    (missing : list required_component) (self : Chart) :
  exists added : list ChartComponent,
    _components (snd (append_missing existing self missing))
    = _components self ++ added
    /\ set__components [] (snd (append_missing existing self missing))
       = set__components [] self
    /\ Forall (fun c => exists r props,
                   (r ∈ missing) /\ (fst (prop_of r) ∉ existing)
                   /\ c = ChartComponent_new (fst (prop_of r)) props) added
    /\ (fst (append_missing existing self missing) = Done tt ->
        forall r, r ∈ missing -> fst (prop_of r) ∉ existing ->
                  0 < numRepeats self r ->
                  exists props,
                    ChartComponent_new (fst (prop_of r)) props ∈ added).
Proof.
  revert self. induction missing as [|r missing IH]; intros self.
  - exists []. cbn. rewrite app_nil_r. repeat split; [constructor|].
    intros _ r Hr. by apply elem_of_nil in Hr.
  - cbn [append_missing]. destruct (prop_of r) as [comp_name comp_value] eqn:Er.
    case_bool_decide as Hex.
    + destruct (IH self) as (added & Hc & Hf & Hall & Hdone).
      exists added. split; [done|]. split; [done|]. split.
      * eapply Forall_impl; [exact Hall|]. intros c (r' & props & Hr' & ?).
        exists r', props. split; [by right|done].
      * intros Hd r' [->|Hr']%elem_of_cons Hne Hpos.
        -- rewrite Er in Hne. done.
        -- by apply Hdone.
    + destruct (append_repeats_spec (seq 0 (numRepeats self r)) self
                  comp_name comp_value) as (added1 & Hc1 & Hf1 & Hall1 & Hlen1).
      destruct (append_repeats self comp_name comp_value
                  (seq 0 (numRepeats self r))) as [[[]|e] self1]; cbn in *.
      * destruct (IH self1) as (added2 & Hc2 & Hf2 & Hall2 & Hdone2).
        exists (added1 ++ added2). split; [|split; [|split]].
        -- rewrite Hc2, Hc1. by rewrite <- app_assoc.
        -- by rewrite Hf2.
        -- apply Forall_app. split.
           ++ eapply Forall_impl; [exact Hall1|]. intros c [props ->].
              exists r, props. rewrite Er. split; [by left|done].
           ++ eapply Forall_impl; [exact Hall2|].
              intros c (r' & props & Hr' & ?).
              exists r', props. split; [by right|done].
        -- intros Hd r' [->|Hr']%elem_of_cons Hne Hpos.
           ++ specialize (Hlen1 eq_refl). rewrite length_seq in Hlen1.
              destruct added1 as [|c added1]; [cbn in Hlen1; lia|].
              apply Forall_cons in Hall1 as [[props ->] _].
              exists props. rewrite Er. cbn. by left.
           ++ rewrite <- (numRepeats_frame self self1 r' Hf1) in Hpos.
              destruct (Hdone2 Hd r' Hr' Hne Hpos) as [props Hin].
              exists props. apply elem_of_app. by right.
      * exists added1. split; [done|]. split; [done|]. split; [|done].
        eapply Forall_impl; [exact Hall1|]. intros c [props ->].
        exists r, props. rewrite Er. split; [by left|done].
Qed.

Lemma append_missing_nothing_to_do (existing : gset string)
    (missing : list required_component) (self : Chart) :
  (forall r, r ∈ missing ->
             fst (prop_of r) ∈ existing \/ numRepeats self r = 0) ->
  append_missing existing self missing = (Done tt, self).
Proof.
  induction missing as [|r missing IH]; intros Hall; [done|].
  cbn [append_missing]. destruct (prop_of r) as [comp_name comp_value] eqn:Er.
  assert (append_missing existing self missing = (Done tt, self)) as Hrest.
  { apply IH. intros r' Hr'. apply Hall. by right. }
  case_bool_decide as Hex; [done|].
  destruct (Hall r) as [Hin|Hzero]; [by left| |].
  - rewrite Er in Hin. done.
  - rewrite Hzero. cbn. done.
Qed.

(** X14, completing a chart is idempotent: provided the [type] of a
    [ChartComponent] is the name it was built with, when
    [_append_missing_data_components] returns, a second call returns too and
    appends nothing, so marshalling a chart twice does not duplicate its
    components. The call only appends: the components the chart had stay
    first, in order; and no appended component has the name of a component
    the chart already had. *)
Theorem append_missing_idempotent
    (REQUIRED_COMPONENTS : string -> option (list required_component))
    (self self' : Chart) :
  (forall component_name props,
      ChartComponent_type (ChartComponent_new component_name props)
      = component_name) ->
  _append_missing_data_components REQUIRED_COMPONENTS self = (Done tt, self') ->
  _append_missing_data_components REQUIRED_COMPONENTS self' = (Done tt, self')
  /\ _components self `prefix_of` _components self'
  /\ Forall (fun c => ChartComponent_type c ∉ component_names self)
       (drop (length (_components self)) (_components self'))
  /\ set__components [] self' = set__components [] self.
Proof.
  intros Htype. unfold _append_missing_data_components.
  destruct (REQUIRED_COMPONENTS (_type self)) as [missing|] eqn:Ereq.
  2: { intros [= <-]. rewrite Ereq. rewrite drop_all.
       repeat split; [done|constructor]. }
  intros Hcall.
  destruct (append_missing_spec (component_names self) missing self)
    as (added & Hc & Hf & Hall & Hdone).
  rewrite Hcall in Hc, Hf, Hdone. cbn in Hc, Hf, Hdone.
  specialize (Hdone eq_refl).
  destruct (frame_columns _ _ Hf) as [Hcols Hty].
  rewrite Hty, Ereq. split; [|split; [|split]].
  - apply append_missing_nothing_to_do. intros r Hr.
    destruct (decide (fst (prop_of r) ∈ component_names self)) as [Hin|Hnotin].
    + left. unfold component_names in *. rewrite Hc, fmap_app.
      rewrite list_to_set_app_L. apply elem_of_union. by left.
    + destruct (numRepeats self r) as [|k] eqn:Ek.
      * right. by rewrite (numRepeats_frame self self' r Hf).
      * left. destruct (Hdone r Hr Hnotin) as [props Hin]; [lia|].
        unfold component_names. rewrite Hc, fmap_app, list_to_set_app_L.
        apply elem_of_union. right. apply elem_of_list_to_set.
        apply list_elem_of_fmap. eexists. split; [|exact Hin].
        by rewrite Htype.
  - rewrite Hc. by apply prefix_app_r.
  - rewrite Hc, drop_app_length.
    eapply Forall_impl; [exact Hall|]. intros c (r & props & _ & Hne & ->).
    by rewrite Htype.
  - done.
Qed.

(** ** Components repeated for each column *)

Lemma materializeValue_in_range (self : Chart) (v : value) (i : nat) :
  no_fixed_column v = true ->
  i < length (_columns self) ->
  exists a : atom, _materializeValue self v i = Done a.
Proof.
  intros Hv Hi. destruct v as [z| |c|a]; [done| |by eexists|by eexists].
  destruct (lookup_lt_is_Some_2 (_columns self) i Hi) as [c Hc].
  exists c. cbn.
  assert ((Z.of_nat (length (_columns self)) <=? Z.of_nat i)%Z = false) as ->
    by (apply Z.leb_gt; lia).
  rewrite columns_getitem_nat. by rewrite Hc.
Qed.

Lemma materialize_props_in_range (self : Chart) (r : required_component)
    (i : nat) :
  no_fixed_columns r = true ->
  i < length (_columns self) ->
  exists props, materialize_props self (snd (prop_of r)) i = Done props.
Proof.
  unfold no_fixed_columns. intros Hr Hi.
  destruct (snd (prop_of r)) as [items|v]; cbn.
  - assert (exists l, materialize_items self items i = Done l) as [l ->];
      [|by eexists].
    induction items as [|[k v] items IH]; [by eexists|].
    cbn in Hr. apply andb_true_iff in Hr as [Hv Hr].
    destruct (materializeValue_in_range self v i Hv Hi) as [a Ha].
    destruct (IH Hr) as [l Hl]. exists ((k, a) :: l). cbn. by rewrite Ha, Hl.
  - destruct (materializeValue_in_range self v i Hr Hi) as [a ->]. by eexists.
Qed.

Lemma append_repeats_in_range (indices : list nat) (self : Chart)
    (r : required_component) :
  no_fixed_columns r = true ->
  Forall (fun i => i < length (_columns self)) indices ->
  fst (append_repeats self (fst (prop_of r)) (snd (prop_of r)) indices)
  = Done tt.
Proof.
  intros Hr. revert self. induction indices as [|i indices IH];
    intros self Hall; [done|].
  apply Forall_cons in Hall as [Hi Hall]. cbn [append_repeats].
  destruct (materialize_props_in_range self r i Hr Hi) as [props ->].
  by apply IH.
Qed.

(** X15, a component repeated for each column never runs out of columns: when
    every required component of the chart type is a [ForEachColumn] that
    refers to columns through [ColumnAtCurrentIndex] only,
    [_append_missing_data_components] returns without [IndexError] whatever
    the number of columns, zero included, and appends one component per
    column for each required name the chart did not have. *)
Theorem for_each_column_in_bounds
    (REQUIRED_COMPONENTS : string -> option (list required_component))
    (self : Chart) (missing : list required_component) :
  REQUIRED_COMPONENTS (_type self) = Some missing ->
  forallb (fun r => is_for_each r && no_fixed_columns r) missing = true ->
  exists self' : Chart,
    _append_missing_data_components REQUIRED_COMPONENTS self = (Done tt, self')
    /\ length (_components self')
       = length (_components self)
         + length (_columns self)
           * length (filter (fun r => fst (prop_of r) ∉ component_names self)
                       missing).
Proof.
  intros Hreq Hall. unfold _append_missing_data_components. rewrite Hreq.
  clear Hreq. generalize (component_names self). intros existing.
  revert self Hall.
  induction missing as [|r missing IH]; intros self Hall.
  - exists self. cbn. split; [done|lia].
  - cbn in Hall. apply andb_true_iff in Hall as [Hr Hall].
    apply andb_true_iff in Hr as [Hfor Hsafe].
    cbn [append_missing].
    destruct (prop_of r) as [comp_name comp_value] eqn:Er.
    case_bool_decide as Hex.
    + destruct (IH self Hall) as (self' & -> & Hlen). exists self'.
      split; [done|]. rewrite Hlen.
      rewrite filter_cons_False; [done|]. rewrite Er. cbn. tauto.
    + assert (Forall (fun i => i < length (_columns self))
                (seq 0 (numRepeats self r))) as Hrange.
      { destruct r; [|done]. cbn. apply Forall_forall.
        intros i Hi%elem_of_seq. lia. }
      pose proof (append_repeats_in_range
                    (seq 0 (numRepeats self r)) self r Hsafe Hrange) as Hdone.
      destruct (append_repeats_spec (seq 0 (numRepeats self r)) self
                  comp_name comp_value) as (added & Hc & Hf & _ & Hlen).
      rewrite Er in Hdone. cbn [fst snd] in Hdone.
      destruct (append_repeats self comp_name comp_value
                  (seq 0 (numRepeats self r))) as [o self1];
        cbn [fst snd] in *.
      rewrite Hdone in Hlen |- *.
      specialize (Hlen eq_refl). rewrite length_seq in Hlen.
      destruct (IH self1 Hall) as (self' & -> & Hlen').
      exists self'. split; [done|]. rewrite Hlen', Hc, length_app, Hlen.
      destruct (frame_columns _ _ Hf) as [-> _].
      rewrite filter_cons_True by (rewrite Er; done). cbn [length].
      destruct r; [|done]. cbn. lia.
Qed.

(** ** Builder notation *)

Lemma builder_chain_implemented (calls : list builder_call) (self : Chart) :
  forallb (fun call => snd (fst call)) calls = true ->
  builder_chain calls self
  = (Done tt,
     set__components (_components self ++ (component_of_call <$> calls)) self).
Proof.
  revert self. induction calls as [|[[n i] props] calls IH]; intros self Hall.
  - cbn. rewrite app_nil_r. by destruct self.
  - cbn in Hall. apply andb_true_iff in Hall as [-> Hall].
    cbn [builder_chain append_component_method]. rewrite IH by done.
    cbn. f_equal. unfold set__components. cbn. f_equal.
    by rewrite <- app_assoc.
Qed.

(** X16, a chain of component methods: as long as the components are
    implemented, each call appends one component, in call order, after the
    components the chart had; the first call of a component that is not
    implemented raises [NotImplementedError] and appends nothing, so the
    chart keeps what the calls before it appended and the calls after it are
    not made. *)
Theorem builder_chain_stops (self : Chart) (before after : list builder_call)
    (component_name : string) (props : list (string * atom)) :
  forallb (fun call => snd (fst call)) before = true ->
  let self' :=
    set__components (_components self ++ (component_of_call <$> before)) self in
  builder_chain before self = (Done tt, self')
  /\ builder_chain (before ++ (component_name, false, props) :: after) self
     = (Throw NotImplementedError, self').
Proof.
  intros Hall self'. split; [by apply builder_chain_implemented|].
  subst self'. revert self.
  induction before as [|[[n i] p] before IH]; intros self.
  - cbn. rewrite app_nil_r. by destruct self.
  - cbn in Hall. apply andb_true_iff in Hall as [-> Hall].
    cbn [app builder_chain append_component_method]. rewrite IH by done.
    cbn. f_equal. unfold set__components. cbn. f_equal.
    by rewrite <- app_assoc.
Qed.

End ChartProperties.


(** * Instances of the properties, on a concrete process *)

#[local] Existing Instance no_watcher.

(** The spec's example of an archive: a session named demo with id abc and
    three enqueued deltas. *)
Example archive_of_demo :
  fst (serialize_report_to_files
         (run [Enqueue b0; Enqueue b1; Enqueue b2]
            (snd (__init__ sample_msg "demo" [] []))))
  = Return
      [("reports/abc/manifest.json",
        Text (sample_json_dumps
                [("name", JStr "demo"); ("local_id", JStr "4711");
                 ("nDeltas", JInt 3)]));
       ("reports/abc/0.delta", Bytes b0);
       ("reports/abc/1.delta", Bytes b1);
       ("reports/abc/2.delta", Bytes b2)].
Proof. vm_compute. reflexivity. Qed.

Lemma archive_shape_witness :
  let ops := [@Enqueue no_watcher b0; Enqueue b1; Enqueue b2] in
  let st := run ops (snd (__init__ sample_msg "demo" [] [])) in
  no_finish ops = true
  /\ master_deltas st = [b0; b1; b2]
  /\ exists entries : list (string * content),
       fst (serialize_report_to_files st) = Return entries
       /\ length entries = 4
       /\ entries !! 0
          = Some ("reports/abc/manifest.json",
                  Text (sample_json_dumps
                          [("name", JStr "demo"); ("local_id", JStr "4711");
                           ("nDeltas", JInt 3)]))
       /\ forall k : nat,
            entries !! S k
            = (fun delta =>
                 ("reports/abc/" +:+ pretty k +:+ ".delta", Bytes delta))
              <$> [b0; b1; b2] !! k.
Proof.
  destruct (@archive_shape no_watcher sample_msg "demo" [] []
              [@Enqueue no_watcher b0; @Enqueue no_watcher b1;
               @Enqueue no_watcher b2])
    as (_ & Hall & Hentries).
  split; [reflexivity|]. split; [exact (Hall eq_refl)|]. exact Hentries.
Defined.



(** C4, counterexample to the claim as stated: a queue is attached, removed,
    and removed again; the second removal raises [ValueError]. *)
Lemma remove_client_queue_twice_counterexample :
  let st := run [AddClientQueue; RemoveClientQueue 1]
              (snd (__init__ sample_msg "demo" [] [])) in
  fst (remove_client_queue 1 st) = Raise ValueError
  /\ ~ detach_never_raises st 1.
Proof.
  split; [vm_compute; reflexivity|].
  intros (st' & Hst'). vm_compute in Hst'. discriminate Hst'.
Qed.

Lemma remove_client_queue_not_found_witness :
  let st := run [AddClientQueue; RemoveClientQueue 1]
              (snd (__init__ sample_msg "demo" [] [])) in
  (1 ∉ _client_queues (self st))
  /\ remove_client_queue 1 st = (Raise ValueError, st).
Proof.
  assert (1 ∉ _client_queues
                (self (run [AddClientQueue; RemoveClientQueue 1]
                         (snd (__init__ sample_msg "demo" [] [])))))
    as Hq by (vm_compute; apply not_elem_of_nil).
  split; [exact Hq|].
  exact (@remove_client_queue_not_found no_watcher _ 1 Hq).
Defined.

Lemma sample_state_wf : wf sample_state.
Proof.
  unfold wf. vm_compute.
  repeat split; [lia | repeat constructor | | apply NoDup_singleton].
  intros Hin. apply list_elem_of_singleton in Hin. discriminate Hin.
Qed.

Lemma post_close_drop_witness :
  let st0 := snd (finished_local_connection sample_state) in
  let st1 := run [AddClientQueue] st0 in
  enqueue b1 st0 = (Return tt, st0)
  /\ fst (enqueue b1 st1) = Return tt
  /\ obj (snd (enqueue b1 st1)) (_master_queue (self st1))
     = obj st1 (_master_queue (self st1))
  /\ master_deltas (snd (enqueue b1 st1)) = master_deltas st1
  /\ fst (serialize_report_to_files (snd (enqueue b1 st1)))
     = fst (serialize_report_to_files st1).
Proof.
  exact (post_close_drop sample_state [AddClientQueue] b1 sample_state_wf).
Defined.

Lemma export_frame_witness :
  exists (entries : list (string * content)) (st' : State),
    serialize_report_to_files sample_state = (Return entries, st')
    /\ self st' = self sample_state
    /\ trace st' = trace sample_state
    /\ (forall r : qref,
           r < length (heap sample_state) ->
           heap st' !! r = heap sample_state !! r)
    /\ obj st' (_master_queue (self sample_state))
       = obj sample_state (_master_queue (self sample_state))
    /\ Forall (fun q => obj st' q = obj sample_state q)
         (_client_queues (self sample_state))
    /\ length (heap st') = S (length (heap sample_state))
    /\ deltas_of st' (length (heap sample_state)) = []
    /\ fst (serialize_report_to_files st') = Return entries.
Proof. exact (export_frame sample_state sample_state_wf). Defined.

Lemma grace_period_monotonic_witness :
  let st := snd (add_client_queue (snd (__init__ sample_msg "demo" [] []))) in
  _in_grace_period (self (snd (__init__ sample_msg "demo" [] []))) = true
  /\ _in_grace_period (self st) = false
  /\ _in_grace_period (self (exec (Enqueue b0) st)) = false
  /\ _in_grace_period
       (self (run [FinishedLocalConnection; RemoveClientQueue 1; Close;
                   SerializeReportToFiles; CanBeDeregistered] st)) = false.
Proof.
  destruct (@grace_period_monotonic no_watcher) as (Hinit & Hexec & Hrun).
  split; [apply Hinit|]. split; [reflexivity|].
  split; [apply Hexec; reflexivity | apply Hrun; reflexivity].
Defined.

Lemma watcher_fallback_witness :
  (let r := @__init__ recursive_fails sample_msg "demo" [] [] in
   fst r = Return tt
   /\ _fs_observer (self (snd r))
      = Some {| obs_path := "/home/u"; obs_recursive := false;
                obs_patterns := ["*.py"]; obs_ignore_patterns := ["*.pyc"];
                obs_stopped := false |}
   /\ trace (snd r)
      = [Observer_start "/home/u" true; Observer_start "/home/u" false])
  /\ (let r := @__init__ flat_fails sample_msg "demo" [] [] in
      fst r = Return tt
      /\ _fs_observer (self (snd r)) = None
      /\ trace (snd r) = [Observer_start "/home/u" false])
  /\ (let r := @__init__ nothing_starts sample_msg "demo" [] [] in
      fst r = Return tt
      /\ _fs_observer (self (snd r)) = None
      /\ trace (snd r)
         = [Observer_start "/home/u" true; Observer_start "/home/u" false]).
Proof.
  split; [|split].
  - destruct (@watcher_fallback recursive_fails sample_msg "demo" [] [])
      as (Hret & Hflat & _ & _).
    split; [exact Hret|].
    exact (Hflat eq_refl eq_refl eq_refl eq_refl).
  - destruct (@watcher_fallback flat_fails sample_msg "demo" [] [])
      as (Hret & _ & Hnone & _).
    split; [exact Hret|].
    exact (Hnone eq_refl eq_refl eq_refl).
  - destruct (@watcher_fallback nothing_starts sample_msg "demo" [] [])
      as (Hret & _ & _ & Hboth).
    split; [exact Hret|].
    exact (Hboth eq_refl eq_refl eq_refl eq_refl).
Defined.

(** C10, counterexample to the claim read to the letter: the working
    directory of the session no longer exists when a watched file changes;
    [Popen] raises, the handler does not return and waits for nothing. *)
Lemma rerun_missing_cwd_counterexample :
  let st := snd (@__init__ watching gone_msg "demo" [] []) in
  @on_any_event watching (file_event EVENT_TYPE_MODIFIED) st
  = (Raise OSError,
     {| self := self st; heap := heap st;
        trace := [Observer_start "/home/u" false;
                  Popen ["python"; "/home/u/demo.py"] "/gone"] |})
  /\ @dispatch watching (file_event EVENT_TYPE_MODIFIED) st
     = @on_any_event watching (file_event EVENT_TYPE_MODIFIED) st
  /\ ~ @rerun_to_the_letter watching st (file_event EVENT_TYPE_MODIFIED).
Proof.
  split; [vm_compute; reflexivity|]. split; [vm_compute; reflexivity|].
  intros Hletter. vm_compute in Hletter. discriminate Hletter.
Qed.

Lemma fs_event_reruns_witness :
  let st := snd (@__init__ watching sample_msg "demo" [] []) in
  let gone := snd (@__init__ watching gone_msg "demo" [] []) in
  let rerun := [Popen ["python"; "/home/u/demo.py"] "/home/u"; Popen_wait] in
  let events := [file_event EVENT_TYPE_CREATED; file_event EVENT_TYPE_MODIFIED;
                 file_event EVENT_TYPE_MOVED; file_event EVENT_TYPE_DELETED] in
  trace (snd (@observer_run watching events st))
  = [Observer_start "/home/u" false] ++ rerun ++ rerun ++ rerun ++ rerun
  /\ @dispatch watching (file_event EVENT_TYPE_DELETED) gone
     = (Raise OSError,
        {| self := self gone; heap := heap gone;
           trace := [Observer_start "/home/u" false;
                     Popen ["python"; "/home/u/demo.py"] "/gone"] |}).
Proof.
  pose proof
    (@fs_event_reruns watching
       (snd (@__init__ watching sample_msg "demo" [] []))
       {| obs_path := "/home/u"; obs_recursive := false;
          obs_patterns := ["*.py"]; obs_ignore_patterns := ["*.pyc"];
          obs_stopped := false |}
       [file_event EVENT_TYPE_CREATED; file_event EVENT_TYPE_MODIFIED;
        file_event EVENT_TYPE_MOVED; file_event EVENT_TYPE_DELETED]
       eq_refl eq_refl eq_refl) as (_ & _ & Hrun).
  pose proof
    (@fs_event_reruns watching
       (snd (@__init__ watching gone_msg "demo" [] []))
       {| obs_path := "/home/u"; obs_recursive := false;
          obs_patterns := ["*.py"]; obs_ignore_patterns := ["*.pyc"];
          obs_stopped := false |}
       [] eq_refl eq_refl eq_refl) as (_ & Hgone & _).
  cbv zeta. split.
  - rewrite (Hrun eq_refl). reflexivity.
  - rewrite (Hgone (file_event EVENT_TYPE_DELETED) eq_refl). reflexivity.
Defined.

(** ** Instances of the further properties *)

Lemma attach_detach_round_trip_witness :
  exists st2 : State,
    remove_client_queue 2 (snd (add_client_queue sample_state))
    = (Return tt, st2)
    /\ _client_queues (self st2) = [1]
    /\ heap st2 = heap (snd (add_client_queue sample_state))
    /\ _in_grace_period (self st2) = false
    /\ _has_local (self st2) = true
    /\ obj st2 (_master_queue (self st2)) = obj sample_state 0.
Proof. exact (attach_detach_round_trip sample_state sample_state_wf). Defined.

Lemma sample_state_client : 1 ∈ _client_queues (self sample_state).
Proof. vm_compute. by left. Qed.

Lemma remove_client_queue_attached_witness :
  exists st' : State,
    remove_client_queue 1 sample_state = (Return tt, st')
    /\ _client_queues (self st') = []
    /\ (1 ∉ _client_queues (self st'))
    /\ S (length (_client_queues (self st'))) = 1
    /\ heap st' = heap sample_state
    /\ trace st' = trace sample_state
    /\ set__client_queues [] (self st') = set__client_queues [] (self sample_state).
Proof.
  exact (remove_client_queue_attached sample_state 1
           sample_state_wf sample_state_client).
Defined.

(** The sample session once its client is detached. *)
Lemma detached_queue_untouched_witness :
  let st := exec (RemoveClientQueue 1) sample_state in
  let ops := [Enqueue b1; AddClientQueue; FinishedLocalConnection] in
  obj (run ops st) 1 = {| rq_deltas := [b0]; rq_closed := false |}
  /\ (1 ∉ _client_queues (self (run ops st))).
Proof.
  assert (wf (exec (RemoveClientQueue 1) sample_state)) as Hwf
    by apply exec_wf, sample_state_wf.
  assert (1 < length (heap (exec (RemoveClientQueue 1) sample_state))) as Hlt
    by (vm_compute; lia).
  assert (1 <> _master_queue (self (exec (RemoveClientQueue 1) sample_state)))
    as Hm by (vm_compute; lia).
  assert (1 ∉ _client_queues (self (exec (RemoveClientQueue 1) sample_state)))
    as Hc by (vm_compute; apply not_elem_of_nil).
  exact (detached_queue_untouched (exec (RemoveClientQueue 1) sample_state) 1
           [Enqueue b1; AddClientQueue; FinishedLocalConnection]
           Hwf Hlt Hm Hc).
Defined.

Lemma fan_out_in_step_witness :
  let ops := [@Enqueue no_watcher b0; AddClientQueue; Enqueue b1;
              AddClientQueue; Enqueue b2] in
  let st := run ops (snd (__init__ sample_msg "demo" [] [])) in
  master_deltas st = [b0; b1; b2]
  /\ Forall (fun q => deltas_of st q = [b0; b1; b2] /\ closed_of st q = false)
       (_client_queues (self st)).
Proof.
  exact (@fan_out_in_step no_watcher sample_msg "demo" [] []
           [@Enqueue no_watcher b0; AddClientQueue; @Enqueue no_watcher b1;
            AddClientQueue; @Enqueue no_watcher b2] eq_refl).
Defined.

Lemma finished_local_connection_closes_all_witness :
  let st' := snd (finished_local_connection sample_state) in
  fst (finished_local_connection sample_state) = Return tt
  /\ _has_local (self st') = false
  /\ _in_grace_period (self st') = false
  /\ _client_queues (self st') = [1]
  /\ closed_of st' (_master_queue (self st')) = true
  /\ master_deltas st' = [b0]
  /\ Forall (fun q => closed_of st' q = true /\ deltas_of st' q = deltas_of sample_state q)
       (_client_queues (self st'))
  /\ finished_local_connection st' = (Return tt, st').
Proof.
  exact (finished_local_connection_closes_all sample_state sample_state_wf).
Defined.

Lemma archive_changes_only_by_enqueue_witness :
  fst (serialize_report_to_files (exec FinishedLocalConnection sample_state))
  = fst (serialize_report_to_files sample_state).
Proof.
  exact (archive_changes_only_by_enqueue sample_state FinishedLocalConnection
           sample_state_wf eq_refl).
Defined.

Lemma archive_append_only_witness :
  exists (entries entries' : list (string * content)) (more : list (list byte)),
    fst (serialize_report_to_files sample_state) = Return entries
    /\ fst (serialize_report_to_files
              (run [Enqueue b1; RemoveClientQueue 1; Enqueue b2] sample_state))
       = Return entries'
    /\ master_deltas
         (run [Enqueue b1; RemoveClientQueue 1; Enqueue b2] sample_state)
       = master_deltas sample_state ++ more
    /\ tail entries `prefix_of` tail entries'
    /\ length entries' = length entries + length more.
Proof.
  exact (archive_append_only sample_state
           [Enqueue b1; RemoveClientQueue 1; Enqueue b2] sample_state_wf).
Defined.

Lemma watcher_off_witness :
  let st := snd (__init__ sample_msg "demo" [] []) in
  fst (__init__ sample_msg "demo" [] []) = Return tt
  /\ trace st = []
  /\ _fs_observer (self st) = None
  /\ close st = (Return tt, st).
Proof. exact (@watcher_off no_watcher sample_msg "demo" [] [] eq_refl). Defined.

Lemma observer_after_init_witness :
  let st := snd (@__init__ recursive_fails sample_msg "demo" [] []) in
  let o := {| obs_path := "/home/u"; obs_recursive := false;
              obs_patterns := ["*.py"]; obs_ignore_patterns := ["*.pyc"];
              obs_stopped := false |} in
  _fs_observer (self st) = Some o
  /\ last (trace st) = Some (Observer_start "/home/u" false)
  /\ obs_recursive <$> _fs_observer
                         (self (snd (@__init__ watching sample_msg "demo" [] [])))
     = Some false.
Proof.
  destruct (@observer_after_init recursive_fails sample_msg "demo" [] [])
    as (Hsome & _ & _).
  destruct (Hsome _ eq_refl) as (_ & _ & _ & _ & Hlast).
  destruct (@observer_after_init watching sample_msg "demo" [] [])
    as (_ & _ & Hfirst).
  destruct (Hfirst eq_refl eq_refl) as [Hmode _].
  split; [reflexivity|]. split; [exact Hlast | exact Hmode].
Defined.

Lemma materializeValue_bounds_witness :
  let self := sample_chart "line_chart" ["a"; "b"] in
  @_materializeValue sample_charts self (ColumnAtIndex 1) 0 = Done "b"
  /\ (exists c, _columns self !! 1 = Some c
                /\ @_materializeValue sample_charts self (ColumnAtIndex (-1)) 0
                   = Done c)
  /\ @_materializeValue sample_charts self (ColumnAtIndex (-3)) 0
     = Throw IndexError
  /\ (2 <= 2
      \/ exists z : Z, @ColumnAtCurrentIndex sample_charts = ColumnAtIndex z
                       /\ (2 <= z \/ z < - 2)%Z).
Proof.
  destruct (@materializeValue_bounds sample_charts
              (sample_chart "line_chart" ["a"; "b"]) 2)
    as (_ & _ & Hpos & Hneg & Hlow & Hthrow).
  split; [exact (Hpos 1%Z ltac:(lia))|].
  split; [exact (Hneg (-1)%Z ltac:(cbn; lia))|].
  split; [exact (Hlow (-3)%Z ltac:(cbn; lia))|].
  destruct (Hthrow ColumnAtCurrentIndex IndexError eq_refl) as [_ [[_ Hle]|Hz]].
  - left. exact Hle.
  - right. exact Hz.
Defined.

Lemma append_missing_idempotent_witness :
  let self := sample_chart "line_chart" ["a"; "b"; "c"] in
  let self' :=
    snd (@_append_missing_data_components sample_charts sample_required self) in
  @_append_missing_data_components sample_charts sample_required self'
  = (Done tt, self')
  /\ _components self `prefix_of` _components self'
  /\ Forall (fun c => ChartComponent_type c ∉ component_names self)
       (drop (length (_components self)) (_components self'))
  /\ set__components [] self' = set__components [] self.
Proof.
  exact (@append_missing_idempotent sample_charts sample_required
           (sample_chart "line_chart" ["a"; "b"; "c"]) _
           (fun _ _ => eq_refl) eq_refl).
Defined.

Lemma for_each_column_in_bounds_witness :
  let self := sample_chart "line_chart" [] in
  exists self' : @Chart sample_charts,
    @_append_missing_data_components sample_charts sample_required self
    = (Done tt, self')
    /\ length (_components self')
       = length (_components self)
         + length (_columns self)
           * length (filter (fun r => fst (prop_of r) ∉ component_names self)
                       (default [] (sample_required "line_chart"))).
Proof.
  exact (@for_each_column_in_bounds sample_charts sample_required
           (sample_chart "line_chart" []) _ eq_refl eq_refl).
Defined.

Lemma builder_chain_stops_witness :
  let self := sample_chart "line_chart" ["a"] in
  let line : @builder_call sample_charts := ("line", true, [("data_key", "a")]) in
  let built : list (@ChartComponent sample_charts) :=
    [("line", @inl _ string [("data_key", "a")]); ("legend", @inl _ string [])] in
  @builder_chain sample_charts [line; ("legend", true, [])] self
  = (Done tt, set__components built self)
  /\ @builder_chain sample_charts
       [line; ("legend", true, []); ("brush", false, []); line] self
     = (Throw NotImplementedError, set__components built self).
Proof.
  exact (@builder_chain_stops sample_charts
           (sample_chart "line_chart" ["a"])
           [("line", true, [("data_key", "a")]); ("legend", true, [])]
           [("line", true, [("data_key", "a")])]
           "brush" [] eq_refl).
Defined.
